(** * Equal-loudness filter (ReplayGain pre-filter)

    A shallow embedding of [audio_filters/equal_loudness_filter.py]: the
    embedded coefficient table, the [EqualLoudnessFilter] cascade with its
    constructor, [reset] and [process], and the [IIRFilter] stage it is
    built from.  Python floats are IEEE binary64 numbers and are modelled by
    Rocq's primitive floats, Python ints by [Z], Python lists by [list].
    The cascade is modelled twice: on values, and on list objects that
    several cascades can refer to; the second model is shown to observe
    what the first one does. *)

From Stdlib Require Import PrimFloat List ZArith String DecimalString Bool Lia.
From Stdlib Require Import Permutation Sorted DecimalPos DecimalZ.
Import ListNotations.

Set Warnings "-inexact-float".

Local Open Scope Z_scope.

(** ** Exceptions and fallible computations *)

(** [ValueError] is what [EqualLoudnessFilter.__init__] raises, [KeyError]
    what a failed subscript [d[k]] raises, and [ConfigurationError] what the
    stage raises on coefficient vectors of the wrong length. *)
Inductive exception : Type :=
| ValueError (msg : string)
| KeyError (key : Z)
| ConfigurationError.

Definition result (A : Type) : Type := (exception + A)%type.

Definition ret {A : Type} (a : A) : result A := inr a.

Definition raise {A : Type} (e : exception) : result A := inl e.

Definition bind {A B : Type} (m : result A) (k : A -> result B) : result B :=
  match m with
  | inl e => inl e
  | inr a => k a
  end.

Notation "x <- m ;; k" := (bind m (fun x => k))
  (at level 100, m at next level, right associativity).

(** ** Python built-ins used by the constructor *)

(** The decimal numeral of an int: a minus sign for a negative one, then
    its digits without leading zeros. *)
Definition decimal (n : Z) : string := NilZero.string_of_int (Z.to_int n).

(** The number of decimal digits of an int, the sign not counted. *)
Definition digits (n : Z) : nat := String.length (decimal (Z.abs n)).

(** The interpreter's limit on the conversion of an int to a decimal
    string, [sys.get_int_max_str_digits()], at its default. *)
Definition int_max_str_digits : nat := 4300.

Definition int_max_str_digits_message : string :=
  "Exceeds the limit (4300 digits) for integer string conversion; use sys.set_int_max_str_digits() to increase the limit".

(** [str(n)] for an int, which is also how an f-string formats it: the
    decimal numeral, unless it has more digits than the limit allows. *)
Definition str (n : Z) : result string :=
  if (int_max_str_digits <? digits n)%nat
  then raise (ValueError int_max_str_digits_message)
  else ret (decimal n).

(** A generator expression consumed from left to right: the first element
    that raises ends it. *)
Fixpoint map_result {A B : Type} (f : A -> result B) (l : list A)
  : result (list B) :=
  match l with
  | [] => ret []
  | a :: rest =>
      b <- f a ;;
      bs <- map_result f rest ;;
      ret (b :: bs)
  end.

(** [sep.join(parts)]. *)
Definition join (sep : string) (parts : list string) : string :=
  String.concat sep parts.

Fixpoint insert_sorted (k : Z) (l : list Z) : list Z :=
  match l with
  | [] => [k]
  | h :: t => if k <=? h then k :: l else h :: insert_sorted k t
  end.

(** [sorted(keys)] on ints: ascending order. *)
Definition sorted (l : list Z) : list Z := fold_right insert_sorted [] l.

(** A dict with int keys, in insertion order. *)
Definition dict (V : Type) : Type := list (Z * V).

Definition keys {V : Type} (d : dict V) : list Z := map fst d.

(** [d.get(k)], the lookup behind [k in d] and [d[k]]. *)
Fixpoint dict_get {V : Type} (k : Z) (d : dict V) : option V :=
  match d with
  | [] => None
  | (k', v) :: rest => if k =? k' then Some v else dict_get k rest
  end.

(** [k in d]. *)
Definition dict_contains {V : Type} (k : Z) (d : dict V) : bool :=
  match dict_get k d with
  | Some _ => true
  | None => false
  end.

(** [d[k]]. *)
Definition dict_getitem {V : Type} (k : Z) (d : dict V) : result V :=
  match dict_get k d with
  | Some v => ret v
  | None => raise (KeyError k)
  end.

(** ** The coefficient table *)

(** The four entries ["yule_a"], ["yule_b"], ["butter_a"], ["butter_b"] of one
    inner dict of [_REPLAYGAIN_COEFFS]. *)
Record coeffs : Type := mkCoeffs {
  yule_a : list float;
  yule_b : list float;
  butter_a : list float;
  butter_b : list float
}.

Definition coeffs_44100 : coeffs := {|
  yule_a := [
    1.0; -3.47845948550071; 6.36317777566148; -8.54751527471874;
    9.47693607801280; -8.81498681370155; 6.85401540936998;
    -4.39470996079559; 2.19611684890774; -0.75104302451432;
    0.13149317958808 ]%float;
  yule_b := [
    0.05418656406430; -0.02911007808948; -0.00848709379851;
    -0.00851165645469; -0.00834990904936; 0.02245293253339;
    -0.02596338512915; 0.01624864962975; -0.00240879051584;
    0.00674613682247; -0.00187763777362 ]%float;
  butter_a := [ 1.0; -1.96977855582618; 0.97022847566350 ]%float;
  butter_b := [ 0.98500175787242; -1.97000351574484; 0.98500175787242 ]%float
|}.

Definition coeffs_48000 : coeffs := {|
  yule_a := [
    1.0; -3.84664617118067; 7.81501653005538; -11.34170355132042;
    13.05504219327545; -12.28759895145294; 9.48293806319790;
    -5.87257861775999; 2.75465861874613; -0.86984376593551;
    0.13919314567432 ]%float;
  yule_b := [
    0.03857599435200; -0.02160367184185; -0.00123395316851;
    -0.00009291677959; -0.01655260341619; 0.02161526843274;
    -0.02074045215285; 0.00594298065125; 0.00306428023191;
    0.00012025322027; 0.00288463683916 ]%float;
  butter_a := [ 1.0; -1.97223372919527; 0.97261396931306 ]%float;
  butter_b := [ 0.98621192462708; -1.97242384925416; 0.98621192462708 ]%float
|}.

Definition coeffs_32000 : coeffs := {|
  yule_a := [
    1.0; -2.37898834973084; 2.84868151156327; -2.64577170229825;
    2.23697657451713; -1.67148153367602; 1.00595954808547;
    -0.45953458054983; 0.16378164858596; -0.05032077717131;
    0.02347897407020 ]%float;
  yule_b := [
    0.15457299681924; -0.09331049056315; -0.06247880153653;
    0.02163541888798; -0.05588393329856; 0.04781476674921;
    0.00222312597743; 0.03174092540049; -0.01390589421898;
    0.00651420667831; -0.00881362733839 ]%float;
  butter_a := [ 1.0; -1.95835380975398; 0.95920349965459 ]%float;
  butter_b := [ 0.97938932735214; -1.95877865470428; 0.97938932735214 ]%float
|}.

Definition _REPLAYGAIN_COEFFS : dict coeffs :=
  [ (44100, coeffs_44100); (48000, coeffs_48000); (32000, coeffs_32000) ].

(** ** The recursive filter stage *)

Module IIRFilter.

(** Modelled from the spec: the class [IIRFilter] of
    [audio_filters/iir_filter.py], which the cascade imports, is not among
    the sources.  The record follows the RecursiveFilter entity of the
    data model: a fixed [order], the active coefficient set
    ([feedback], [feedforward]) and the two history buffers, kept
    most-recent-last.  The field names [order], [input_history] and
    [output_history] are the ones [EqualLoudnessFilter.reset] assigns. *)
Record t : Type := mk {
  order : Z;
  feedback : list float;
  feedforward : list float;
  input_history : list float;
  output_history : list float
}.

(** Modelled from the spec: the constructor [IIRFilter(order)], absent from
    the sources.  Both histories start as [order] zeros.  The spec leaves
    the coefficients of a filter that was never configured open ("attached
    before first process call"); they are the empty vectors here. *)
Definition init (order : Z) : t :=
  {| order := order;
     feedback := [];
     feedforward := [];
     input_history := repeat 0%float (Z.to_nat order);
     output_history := repeat 0%float (Z.to_nat order) |}.

(** Modelled from the spec: [IIRFilter.set_coefficients], absent from the
    sources ("configure(feedback, feedforward): installs a CoefficientSet.
    Fails with ConfigurationError if either sequence's length is not
    order + 1.  Does not reset history."). *)
Definition set_coefficients (self : t) (a_coeffs b_coeffs : list float)
  : result t :=
  if negb (Z.of_nat (List.length a_coeffs) =? order self + 1)
     || negb (Z.of_nat (List.length b_coeffs) =? order self + 1)
  then raise ConfigurationError
  else ret {| order := order self;
              feedback := a_coeffs;
              feedforward := b_coeffs;
              input_history := input_history self;
              output_history := output_history self |}.

(** Weighted sum of two vectors, accumulated from [0.0], left to right. *)
Definition dot (u v : list float) : float :=
  fold_left (fun acc cx => (acc + fst cx * snd cx)%float) (combine u v)
            0%float.

(** Modelled from the spec: [IIRFilter.process], absent from the sources:
    [output = (feedforward . [sample, inputHistory recent-first]
               - feedback[1..] . outputHistory recent-first) / feedback[0]],
    after which [sample] and [output] are shifted into the histories and
    the oldest entry of each is dropped.  Element 0 of an empty feedback
    vector reads as [nan]. *)
Definition process (self : t) (sample : float) : float * t :=
  let xs := sample :: rev (input_history self) in
  let ys := rev (output_history self) in
  let output :=
    ((dot (feedforward self) xs - dot (tl (feedback self)) ys)
     / hd nan (feedback self))%float in
  (output,
   {| order := order self;
      feedback := feedback self;
      feedforward := feedforward self;
      input_history := tl (input_history self ++ [sample]);
      output_history := tl (output_history self ++ [output]) |}).

(** Feeding a whole stream, in order. *)
Fixpoint process_all (self : t) (samples : list float) : list float * t :=
  match samples with
  | [] => ([], self)
  | x :: rest =>
      let (y, self') := process self x in
      let (ys, self'') := process_all self' rest in
      (y :: ys, self'')
  end.

End IIRFilter.

(** ** The cascade *)

Module EqualLoudnessFilter.

Record t : Type := mk {
  yulewalk_filter : IIRFilter.t;
  butterworth_filter : IIRFilter.t
}.

(** The text of the [ValueError] of [__init__]: first [supported] is
    joined, then the f-string formats [samplerate]. *)
Definition unsupported_message (samplerate : Z) : result string :=
  parts <- map_result str (sorted (keys _REPLAYGAIN_COEFFS)) ;;
  let supported := join ", " parts in
  rate <- str samplerate ;;
  ret ("Unsupported samplerate " ++ rate
         ++ ". Supported samplerates: " ++ supported)%string.

(** [EqualLoudnessFilter.__init__(self, samplerate)]. *)
Definition init (samplerate : Z) : result t :=
  if negb (dict_contains samplerate _REPLAYGAIN_COEFFS)
  then
    msg <- unsupported_message samplerate ;;
    raise (ValueError msg)
  else
    coeffs <- dict_getitem samplerate _REPLAYGAIN_COEFFS ;;
    yulewalk <- IIRFilter.set_coefficients (IIRFilter.init 10)
                  (yule_a coeffs) (yule_b coeffs) ;;
    butterworth <- IIRFilter.set_coefficients (IIRFilter.init 2)
                     (butter_a coeffs) (butter_b coeffs) ;;
    ret {| yulewalk_filter := yulewalk;
           butterworth_filter := butterworth |}.

(** The call [EqualLoudnessFilter(...)]: [samplerate] has the default
    44100 when the argument is left out. *)
Definition new (samplerate : option Z) : result t :=
  init (match samplerate with
        | Some sr => sr
        | None => 44100
        end).

(** [[0.0] * n]. *)
Definition zeros (n : Z) : list float := repeat 0%float (Z.to_nat n).

Definition with_histories (f : IIRFilter.t) (ih oh : list float)
  : IIRFilter.t :=
  {| IIRFilter.order := IIRFilter.order f;
     IIRFilter.feedback := IIRFilter.feedback f;
     IIRFilter.feedforward := IIRFilter.feedforward f;
     IIRFilter.input_history := ih;
     IIRFilter.output_history := oh |}.

(** [EqualLoudnessFilter.reset]: the four history attributes are replaced
    by fresh lists of zeros, sized by each stage's own [order]. *)
Definition reset (self : t) : t :=
  {| yulewalk_filter :=
       with_histories (yulewalk_filter self)
         (zeros (IIRFilter.order (yulewalk_filter self)))
         (zeros (IIRFilter.order (yulewalk_filter self)));
     butterworth_filter :=
       with_histories (butterworth_filter self)
         (zeros (IIRFilter.order (butterworth_filter self)))
         (zeros (IIRFilter.order (butterworth_filter self))) |}.

(** [EqualLoudnessFilter.process]. *)
Definition process (self : t) (sample : float) : float * t :=
  let (tmp, yulewalk) := IIRFilter.process (yulewalk_filter self) sample in
  let (out, butterworth) :=
    IIRFilter.process (butterworth_filter self) tmp in
  (out, {| yulewalk_filter := yulewalk;
           butterworth_filter := butterworth |}).

(** Feeding a whole stream, in order. *)
Fixpoint process_all (self : t) (samples : list float) : list float * t :=
  match samples with
  | [] => ([], self)
  | x :: rest =>
      let (y, self') := process self x in
      let (ys, self'') := process_all self' rest in
      (y :: ys, self'')
  end.

(** A caller's use of one cascade: any sequence of the two methods. *)
Inductive call : Type :=
| Process (sample : float)
| Reset.

Definition step (self : t) (c : call) : t :=
  match c with
  | Process sample => snd (process self sample)
  | Reset => reset self
  end.

Definition run (self : t) (calls : list call) : t :=
  fold_left step calls self.

End EqualLoudnessFilter.

(** ** Programs over several cascades *)

(** A client program constructs cascades and calls their methods, in any
    order.  Instances are numbered in the order of their construction. *)
Inductive op : Type :=
| New (samplerate : Z)
| Call (i : nat) (c : EqualLoudnessFilter.call).

(** What the program observes: a construction that gave instance [i], a
    construction that raised, a value returned by [process]. *)
Inductive event : Type :=
| Built (i : nat) (samplerate : Z)
| Failed (e : exception)
| Output (i : nat) (y : float).

(** The calls a program makes on instance [i], in order. *)
Fixpoint calls_on (i : nat) (ops : list op) : list EqualLoudnessFilter.call :=
  match ops with
  | [] => []
  | Call j c :: rest =>
      if (j =? i)%nat then c :: calls_on i rest else calls_on i rest
  | New _ :: rest => calls_on i rest
  end.

(** The values instance [i] returned, in order. *)
Fixpoint outputs_of (i : nat) (trace : list event) : list float :=
  match trace with
  | [] => []
  | Output j y :: rest =>
      if (j =? i)%nat then y :: outputs_of i rest else outputs_of i rest
  | _ :: rest => outputs_of i rest
  end.

(** The values one cascade, on its own, returns over a sequence of calls. *)
Fixpoint outputs (self : EqualLoudnessFilter.t)
    (calls : list EqualLoudnessFilter.call) : list float :=
  match calls with
  | [] => []
  | EqualLoudnessFilter.Process sample :: rest =>
      let (y, self') := EqualLoudnessFilter.process self sample in
      y :: outputs self' rest
  | EqualLoudnessFilter.Reset :: rest =>
      outputs (EqualLoudnessFilter.reset self) rest
  end.

(** [l[i] = v] on a list. *)
Fixpoint update {A : Type} (l : list A) (i : nat) (v : A) : list A :=
  match l, i with
  | [], _ => []
  | _ :: rest, O => v :: rest
  | x :: rest, S i' => x :: update rest i' v
  end.

(** ** The program with its list objects *)

Module Shared.

(** Python lists are objects with an identity: the vectors of the table
    are created once, when the module is imported, and every cascade
    built from an entry refers to those same lists; the history lists are
    changed in place by [process] and replaced by [reset].  Here the list
    objects of the program live in a store, addressed by the order of
    their creation, and the attributes of a stage hold addresses. *)
Definition loc : Type := nat.

Definition heap : Type := list (list float).

Definition load (h : heap) (l : loc) : list float := nth l h [].

Definition store (h : heap) (l : loc) (v : list float) : heap := update h l v.

Definition alloc (v : list float) (h : heap) : loc * heap :=
  (List.length h, h ++ [v]).

(** One inner dict of [_REPLAYGAIN_COEFFS], as the lists it refers to. *)
Record coeff_refs : Type := mkRefs {
  yule_a_ref : loc;
  yule_b_ref : loc;
  butter_a_ref : loc;
  butter_b_ref : loc
}.

Definition import_entry (c : coeffs) (h : heap) : coeff_refs * heap :=
  let (ya, h1) := alloc (yule_a c) h in
  let (yb, h2) := alloc (yule_b c) h1 in
  let (ba, h3) := alloc (butter_a c) h2 in
  let (bb, h4) := alloc (butter_b c) h3 in
  ({| yule_a_ref := ya; yule_b_ref := yb;
      butter_a_ref := ba; butter_b_ref := bb |}, h4).

(** Evaluating the dict literal, entry by entry. *)
Fixpoint import_table (d : dict coeffs) (h : heap)
  : dict coeff_refs * heap :=
  match d with
  | [] => ([], h)
  | (k, c) :: rest =>
      let (refs, h1) := import_entry c h in
      let (d', h2) := import_table rest h1 in
      ((k, refs) :: d', h2)
  end.

(** The module after its import: the global [_REPLAYGAIN_COEFFS] and the
    twelve lists it refers to. *)
Definition module_table : dict coeff_refs :=
  fst (import_table _REPLAYGAIN_COEFFS []).

Definition module_heap : heap :=
  snd (import_table _REPLAYGAIN_COEFFS []).

Definition table_size : nat := List.length module_heap.

(** Modelled from the spec: the attributes of an [IIRFilter] object, the
    class being absent from the sources; the four list attributes are
    references. *)
Record stage : Type := mkStage {
  order : Z;
  feedback : loc;
  feedforward : loc;
  input_history : loc;
  output_history : loc
}.

(** Modelled from the spec: [IIRFilter(order)], with a new list for each
    attribute. *)
Definition stage_init (order : Z) (h : heap) : stage * heap :=
  let (a, h1) := alloc [] h in
  let (b, h2) := alloc [] h1 in
  let (ih, h3) := alloc (repeat 0%float (Z.to_nat order)) h2 in
  let (oh, h4) := alloc (repeat 0%float (Z.to_nat order)) h3 in
  ({| order := order; feedback := a; feedforward := b;
      input_history := ih; output_history := oh |}, h4).

(** Modelled from the spec: [IIRFilter.set_coefficients]; the stage keeps
    the lists it is given, it does not copy them ("coefficient data may
    be shared (read-only) across many filter instances"). *)
Definition set_coefficients (self : stage) (a_coeffs b_coeffs : loc)
    (h : heap) : result stage :=
  if negb (Z.of_nat (List.length (load h a_coeffs)) =? order self + 1)
     || negb (Z.of_nat (List.length (load h b_coeffs)) =? order self + 1)
  then raise ConfigurationError
  else ret {| order := order self;
              feedback := a_coeffs;
              feedforward := b_coeffs;
              input_history := input_history self;
              output_history := output_history self |}.

(** Modelled from the spec: [IIRFilter.process]; the output is computed
    from the lists as they are, then the two history lists are changed in
    place, the input history first ("every process call mutates
    inputHistory/outputHistory; no other observable effect"). *)
Definition stage_process (self : stage) (sample : float) (h : heap)
  : float * heap :=
  let xs := sample :: rev (load h (input_history self)) in
  let ys := rev (load h (output_history self)) in
  let output :=
    ((IIRFilter.dot (load h (feedforward self)) xs
      - IIRFilter.dot (tl (load h (feedback self))) ys)
     / hd nan (load h (feedback self)))%float in
  let h1 :=
    store h (input_history self)
      (tl (load h (input_history self) ++ [sample])) in
  let h2 :=
    store h1 (output_history self)
      (tl (load h1 (output_history self) ++ [output])) in
  (output, h2).

Record cascade : Type := mkCascade {
  yulewalk_filter : stage;
  butterworth_filter : stage
}.

(** [EqualLoudnessFilter.__init__]: the two stages are new objects, their
    coefficient attributes refer to the lists of the table. *)
Definition init (samplerate : Z) (h : heap) : result cascade * heap :=
  if negb (dict_contains samplerate module_table)
  then
    (msg <- EqualLoudnessFilter.unsupported_message samplerate ;;
     raise (ValueError msg), h)
  else
    match dict_getitem samplerate module_table with
    | inl e => (inl e, h)
    | inr refs =>
        let (yulewalk0, h1) := stage_init 10 h in
        match set_coefficients yulewalk0
                (yule_a_ref refs) (yule_b_ref refs) h1 with
        | inl e => (inl e, h1)
        | inr yulewalk =>
            let (butterworth0, h2) := stage_init 2 h1 in
            match set_coefficients butterworth0
                    (butter_a_ref refs) (butter_b_ref refs) h2 with
            | inl e => (inl e, h2)
            | inr butterworth =>
                (inr {| yulewalk_filter := yulewalk;
                        butterworth_filter := butterworth |}, h2)
            end
        end
    end.

Definition with_histories (f : stage) (ih oh : loc) : stage :=
  {| order := order f; feedback := feedback f; feedforward := feedforward f;
     input_history := ih; output_history := oh |}.

(** [EqualLoudnessFilter.reset]: each of the four assignments makes a new
    list [[0.0] * order] and binds the attribute to it. *)
Definition reset (self : cascade) (h : heap) : cascade * heap :=
  let (yi, h1) :=
    alloc (EqualLoudnessFilter.zeros (order (yulewalk_filter self))) h in
  let (yo, h2) :=
    alloc (EqualLoudnessFilter.zeros (order (yulewalk_filter self))) h1 in
  let (bi, h3) :=
    alloc (EqualLoudnessFilter.zeros (order (butterworth_filter self))) h2 in
  let (bo, h4) :=
    alloc (EqualLoudnessFilter.zeros (order (butterworth_filter self))) h3 in
  ({| yulewalk_filter := with_histories (yulewalk_filter self) yi yo;
      butterworth_filter := with_histories (butterworth_filter self) bi bo |},
   h4).

(** [EqualLoudnessFilter.process]. *)
Definition process (self : cascade) (sample : float) (h : heap)
  : float * heap :=
  let (tmp, h1) := stage_process (yulewalk_filter self) sample h in
  stage_process (butterworth_filter self) tmp h1.

(** The state of a running program: its list objects and the cascades it
    has constructed. *)
Record state : Type := mkState {
  objects : heap;
  instances : list cascade
}.

Definition module_state : state :=
  {| objects := module_heap; instances := [] |}.

(** One operation of the program; a call on an instance that does not
    exist ends the program. *)
Definition step (st : state) (o : op) : option (list event * state) :=
  match o with
  | New samplerate =>
      match init samplerate (objects st) with
      | (inr self, h) =>
          Some ([Built (List.length (instances st)) samplerate],
                {| objects := h; instances := instances st ++ [self] |})
      | (inl e, h) =>
          Some ([Failed e], {| objects := h; instances := instances st |})
      end
  | Call i c =>
      match nth_error (instances st) i with
      | None => None
      | Some self =>
          match c with
          | EqualLoudnessFilter.Process sample =>
              let (y, h) := process self sample (objects st) in
              Some ([Output i y],
                    {| objects := h; instances := instances st |})
          | EqualLoudnessFilter.Reset =>
              let (self', h) := reset self (objects st) in
              Some ([], {| objects := h;
                           instances := update (instances st) i self' |})
          end
      end
  end.

Fixpoint exec (ops : list op) (st : state) : option (list event * state) :=
  match ops with
  | [] => Some ([], st)
  | o :: rest =>
      match step st o with
      | None => None
      | Some (ev, st') =>
          match exec rest st' with
          | None => None
          | Some (evs, st'') => Some (ev ++ evs, st'')
          end
      end
  end.

(** The values a stage and a cascade have, read through the store. *)
Definition view_stage (h : heap) (s : stage) : IIRFilter.t :=
  {| IIRFilter.order := order s;
     IIRFilter.feedback := load h (feedback s);
     IIRFilter.feedforward := load h (feedforward s);
     IIRFilter.input_history := load h (input_history s);
     IIRFilter.output_history := load h (output_history s) |}.

Definition view (h : heap) (c : cascade) : EqualLoudnessFilter.t :=
  {| EqualLoudnessFilter.yulewalk_filter := view_stage h (yulewalk_filter c);
     EqualLoudnessFilter.butterworth_filter :=
       view_stage h (butterworth_filter c) |}.

(** The values of all the cascades of a program. *)
Definition views (st : state) : list EqualLoudnessFilter.t :=
  map (view (objects st)) (instances st).

(** The lists a cascade changes, and the lists it only reads. *)
Definition footprint (c : cascade) : list loc :=
  [ input_history (yulewalk_filter c); output_history (yulewalk_filter c);
    input_history (butterworth_filter c);
    output_history (butterworth_filter c) ].

Definition coefficient_refs (c : cascade) : list loc :=
  [ feedback (yulewalk_filter c); feedforward (yulewalk_filter c);
    feedback (butterworth_filter c); feedforward (butterworth_filter c) ].

(** A cascade owns its four history lists: they are four different
    lists, none of them a list of the table, and its coefficient
    attributes refer to lists of the table. *)
Definition owned (h : heap) (c : cascade) : Prop :=
  NoDup (footprint c)
  /\ (forall l, In l (footprint c) ->
        (table_size <= l)%nat /\ (l < List.length h)%nat)
  /\ (forall l, In l (coefficient_refs c) -> (l < table_size)%nat).

(** The state of a program is well formed when the lists of the table are
    as the import left them and no history list belongs to two cascades. *)
Definition wf (st : state) : Prop :=
  (table_size <= List.length (objects st))%nat
  /\ (forall l, (l < table_size)%nat ->
        load (objects st) l = load module_heap l)
  /\ (forall i c, nth_error (instances st) i = Some c ->
        owned (objects st) c)
  /\ (forall i j ci cj,
        i <> j ->
        nth_error (instances st) i = Some ci ->
        nth_error (instances st) j = Some cj ->
        forall l, In l (footprint ci) -> ~ In l (footprint cj)).

End Shared.

(** ** The same programs over cascades as values *)

Module Values.

(** The program run on cascades as plain values, one per instance: no
    instance can reach what another one holds. *)
Definition step (ps : list EqualLoudnessFilter.t) (o : op)
  : option (list event * list EqualLoudnessFilter.t) :=
  match o with
  | New samplerate =>
      match EqualLoudnessFilter.init samplerate with
      | inr self => Some ([Built (List.length ps) samplerate], ps ++ [self])
      | inl e => Some ([Failed e], ps)
      end
  | Call i c =>
      match nth_error ps i with
      | None => None
      | Some self =>
          match c with
          | EqualLoudnessFilter.Process sample =>
              let (y, self') := EqualLoudnessFilter.process self sample in
              Some ([Output i y], update ps i self')
          | EqualLoudnessFilter.Reset =>
              Some ([], update ps i (EqualLoudnessFilter.reset self))
          end
      end
  end.

Fixpoint exec (ops : list op) (ps : list EqualLoudnessFilter.t)
  : option (list event * list EqualLoudnessFilter.t) :=
  match ops with
  | [] => Some ([], ps)
  | o :: rest =>
      match step ps o with
      | None => None
      | Some (ev, ps') =>
          match exec rest ps' with
          | None => None
          | Some (evs, ps'') => Some (ev ++ evs, ps'')
          end
      end
  end.

End Values.

(** ** Notions used in the statements *)

(** What a stage keeps across [process] and [reset]: its order and its
    coefficient set. *)
Definition config (f : IIRFilter.t) : Z * list float * list float :=
  (IIRFilter.order f, IIRFilter.feedback f, IIRFilter.feedforward f).

(** A buffer of [n] entries, all of them [0.0]. *)
Definition zeroed (n : nat) (l : list float) : Prop :=
  List.length l = n /\ Forall (fun x => x = 0%float) l.

(** Both history buffers of a stage hold [n] entries. *)
Definition sized (n : nat) (f : IIRFilter.t) : Prop :=
  List.length (IIRFilter.input_history f) = n
  /\ List.length (IIRFilter.output_history f) = n.

(** The two stages of a cascade are chained: the butterworth stage has
    order 2 and has seen, as its inputs, the two latest outputs of the
    yulewalk stage, which has order 10 and remembers 10 outputs. *)
Definition chained (self : EqualLoudnessFilter.t) : Prop :=
  let y := EqualLoudnessFilter.yulewalk_filter self in
  let b := EqualLoudnessFilter.butterworth_filter self in
  IIRFilter.order y = 10 /\ IIRFilter.order b = 2
  /\ List.length (IIRFilter.output_history y) = 10%nat
  /\ IIRFilter.input_history b = skipn 8 (IIRFilter.output_history y).

(** The cascade [__init__] leaves behind for one entry of the table. *)
Definition cascade_of (c : coeffs) : EqualLoudnessFilter.t :=
  {| EqualLoudnessFilter.yulewalk_filter :=
       IIRFilter.mk 10 (yule_a c) (yule_b c)
         (repeat 0%float 10) (repeat 0%float 10);
     EqualLoudnessFilter.butterworth_filter :=
       IIRFilter.mk 2 (butter_a c) (butter_b c)
         (repeat 0%float 2) (repeat 0%float 2) |}.

(** * Properties *)

Import EqualLoudnessFilter.

(** ** The built-ins *)

Lemma insert_sorted_perm (k : Z) (l : list Z) :
  Permutation (k :: l) (insert_sorted k l).
Proof.
  induction l as [| h t IH]; simpl; [apply Permutation_refl |].
  destruct (k <=? h); [apply Permutation_refl |].
  apply perm_trans with (h :: k :: t); [apply perm_swap |].
  apply perm_skip, IH.
Qed.

Lemma insert_sorted_hd (k a : Z) (l : list Z) :
  a <= k -> HdRel Z.le a l -> HdRel Z.le a (insert_sorted k l).
Proof.
  intros Hak Hl. destruct l as [| h t]; simpl.
  - constructor. exact Hak.
  - destruct (k <=? h); constructor; [exact Hak |].
    apply HdRel_inv in Hl. exact Hl.
Qed.

Lemma insert_sorted_sorted (k : Z) (l : list Z) :
  Sorted Z.le l -> Sorted Z.le (insert_sorted k l).
Proof.
  induction l as [| h t IH]; intros Hs; simpl.
  - repeat constructor.
  - destruct (Z.leb_spec k h) as [Hle | Hgt].
    + constructor; [exact Hs | constructor; exact Hle].
    + apply Sorted_inv in Hs. destruct Hs as [Ht Hhd].
      constructor; [apply IH, Ht |].
      apply insert_sorted_hd; [lia | exact Hhd].
Qed.

(** [sorted] returns its argument rearranged in ascending order. *)
Lemma sorted_spec (l : list Z) :
  Permutation l (sorted l) /\ Sorted Z.le (sorted l).
Proof.
  unfold sorted. induction l as [| k t [IHp IHs]]; simpl.
  - split; constructor.
  - split.
    + apply perm_trans with (k :: fold_right insert_sorted [] t).
      * apply perm_skip, IHp.
      * apply insert_sorted_perm.
    + apply insert_sorted_sorted, IHs.
Qed.

(** ** The table and its lookup *)

Lemma dict_contains_keys {V : Type} (k : Z) (d : dict V) :
  dict_contains k d = true <-> In k (keys d).
Proof.
  unfold dict_contains.
  induction d as [| [k' v] rest IH]; simpl.
  - split; [discriminate | tauto].
  - destruct (Z.eqb_spec k k') as [-> | Hne].
    + split; auto.
    + rewrite IH. split; [auto | intros [Heq | Hin]; congruence].
Qed.

Lemma table_cases (sr : Z) (c : coeffs) :
  dict_get sr _REPLAYGAIN_COEFFS = Some c ->
  (sr = 44100 /\ c = coeffs_44100)
  \/ (sr = 48000 /\ c = coeffs_48000)
  \/ (sr = 32000 /\ c = coeffs_32000).
Proof.
  unfold _REPLAYGAIN_COEFFS, dict_get.
  destruct (Z.eqb_spec sr 44100); [intros [= <-]; auto |].
  destruct (Z.eqb_spec sr 48000); [intros [= <-]; auto |].
  destruct (Z.eqb_spec sr 32000); [intros [= <-]; auto |].
  discriminate.
Qed.

Lemma supported_keys :
  sorted (keys _REPLAYGAIN_COEFFS) = [32000; 44100; 48000].
Proof. reflexivity. Qed.

Lemma init_of_entry (sr : Z) (c : coeffs) :
  dict_get sr _REPLAYGAIN_COEFFS = Some c -> init sr = inr (cascade_of c).
Proof.
  intros Hget. unfold init, dict_contains, dict_getitem.
  rewrite Hget. simpl.
  destruct (table_cases _ _ Hget) as [[_ ->] | [[_ ->] | [_ ->]]];
    reflexivity.
Qed.

Lemma supported_parts :
  map_result str (sorted (keys _REPLAYGAIN_COEFFS))
  = inr ["32000"; "44100"; "48000"]%string.
Proof. vm_compute. reflexivity. Qed.

(** What construction does with a rate that is not in the table. *)
Lemma init_absent (sr : Z) :
  dict_get sr _REPLAYGAIN_COEFFS = None ->
  init sr
  = inl (ValueError
           (if (int_max_str_digits <? digits sr)%nat
            then int_max_str_digits_message
            else ("Unsupported samplerate " ++ decimal sr
                    ++ ". Supported samplerates: 32000, 44100, 48000")%string)).
Proof.
  intros Hget. unfold init, dict_contains. rewrite Hget.
  cbn [negb]. unfold unsupported_message. rewrite supported_parts.
  unfold str. cbn [bind].
  destruct (int_max_str_digits <? digits sr)%nat; reflexivity.
Qed.

Lemma init_inv (sr : Z) (fresh : t) :
  init sr = inr fresh ->
  exists c, dict_get sr _REPLAYGAIN_COEFFS = Some c /\ fresh = cascade_of c.
Proof.
  intros Hinit.
  destruct (dict_get sr _REPLAYGAIN_COEFFS) as [c |] eqn:Hget.
  - exists c. split; [reflexivity |].
    rewrite (init_of_entry _ _ Hget) in Hinit. congruence.
  - rewrite (init_absent _ Hget) in Hinit. discriminate.
Qed.

(** C8: every entry of the embedded table has yulewalk vectors of 11
    elements and butterworth vectors of 3 elements, and both feedback
    vectors start with 1.0, which is not zero. *)
Theorem table_invariant (sr : Z) (c : coeffs) :
  dict_get sr _REPLAYGAIN_COEFFS = Some c ->
  List.length (yule_a c) = 11%nat /\ List.length (yule_b c) = 11%nat
  /\ List.length (butter_a c) = 3%nat /\ List.length (butter_b c) = 3%nat
  /\ hd_error (yule_a c) = Some 1%float
  /\ hd_error (butter_a c) = Some 1%float
  /\ PrimFloat.eqb (hd 0%float (yule_a c)) 0 = false
  /\ PrimFloat.eqb (hd 0%float (butter_a c)) 0 = false.
Proof.
  intros Hget.
  destruct (table_cases _ _ Hget) as [[_ ->] | [[_ ->] | [_ ->]]];
    repeat split; reflexivity.
Qed.

Lemma table_invariant_witness :
  dict_get 48000 _REPLAYGAIN_COEFFS = Some coeffs_48000
  /\ List.length (yule_a coeffs_48000) = 11%nat
  /\ hd_error (butter_a coeffs_48000) = Some 1%float.
Proof.
  split; [reflexivity |].
  pose proof (table_invariant 48000 coeffs_48000 eq_refl) as H.
  split; [apply H | apply H].
Defined.




(** C3: for a supported rate construction succeeds and yields two stages,
    the yulewalk stage of order 10 holding the profile's yulewalk pair and
    the butterworth stage of order 2 holding its butterworth pair, each
    with zeroed histories. *)
Theorem construction_builds_stages (sr : Z) :
  In sr (keys _REPLAYGAIN_COEFFS) ->
  exists c,
    dict_get sr _REPLAYGAIN_COEFFS = Some c
    /\ init sr
       = inr {| yulewalk_filter :=
                  {| IIRFilter.order := 10;
                     IIRFilter.feedback := yule_a c;
                     IIRFilter.feedforward := yule_b c;
                     IIRFilter.input_history := repeat 0%float 10;
                     IIRFilter.output_history := repeat 0%float 10 |};
                butterworth_filter :=
                  {| IIRFilter.order := 2;
                     IIRFilter.feedback := butter_a c;
                     IIRFilter.feedforward := butter_b c;
                     IIRFilter.input_history := repeat 0%float 2;
                     IIRFilter.output_history := repeat 0%float 2 |} |}.
Proof.
  intros Hin. apply dict_contains_keys in Hin. unfold dict_contains in Hin.
  destruct (dict_get sr _REPLAYGAIN_COEFFS) as [c |] eqn:Hget;
    [| discriminate].
  exists c. split; [reflexivity |].
  exact (init_of_entry _ _ Hget).
Qed.

Lemma construction_builds_stages_witness :
  exists c,
    dict_get 44100 _REPLAYGAIN_COEFFS = Some c
    /\ init 44100
       = inr {| yulewalk_filter :=
                  {| IIRFilter.order := 10;
                     IIRFilter.feedback := yule_a c;
                     IIRFilter.feedforward := yule_b c;
                     IIRFilter.input_history := repeat 0%float 10;
                     IIRFilter.output_history := repeat 0%float 10 |};
                butterworth_filter :=
                  {| IIRFilter.order := 2;
                     IIRFilter.feedback := butter_a c;
                     IIRFilter.feedforward := butter_b c;
                     IIRFilter.input_history := repeat 0%float 2;
                     IIRFilter.output_history := repeat 0%float 2 |} |}.
Proof.
  apply (construction_builds_stages 44100). simpl. auto.
Defined.

(** C10: constructing without a rate is constructing with 44100, and it
    succeeds. *)
Theorem default_rate :
  new None = new (Some 44100)
  /\ new None = inr (cascade_of coeffs_44100).
Proof. split; reflexivity. Qed.

(** ** The stage *)

(** C7: configuring a stage of order [n] is refused with
    [ConfigurationError] as soon as one of the two vectors has a length
    other than [n + 1]; with both lengths [n + 1] it succeeds, installs the
    two vectors and keeps the order and both history buffers as they were. *)
Theorem set_coefficients_lengths (self : IIRFilter.t) (a b : list float) :
  (Z.of_nat (List.length a) <> IIRFilter.order self + 1
   \/ Z.of_nat (List.length b) <> IIRFilter.order self + 1 ->
   IIRFilter.set_coefficients self a b = inl ConfigurationError)
  /\ (Z.of_nat (List.length a) = IIRFilter.order self + 1 ->
      Z.of_nat (List.length b) = IIRFilter.order self + 1 ->
      exists f,
        IIRFilter.set_coefficients self a b = inr f
        /\ IIRFilter.feedback f = a
        /\ IIRFilter.feedforward f = b
        /\ IIRFilter.order f = IIRFilter.order self
        /\ IIRFilter.input_history f = IIRFilter.input_history self
        /\ IIRFilter.output_history f = IIRFilter.output_history self).
Proof.
  unfold IIRFilter.set_coefficients. split.
  - intros Hbad.
    destruct (Z.eqb_spec (Z.of_nat (List.length a)) (IIRFilter.order self + 1));
      destruct (Z.eqb_spec (Z.of_nat (List.length b)) (IIRFilter.order self + 1));
      simpl; try reflexivity.
    destruct Hbad; contradiction.
  - intros Ha Hb.
    apply Z.eqb_eq in Ha, Hb. rewrite Ha, Hb. simpl.
    eexists. split; [reflexivity |]. simpl. repeat split.
Qed.

Lemma set_coefficients_lengths_witness :
  let used := IIRFilter.mk 2 [] [] [0.5; 0.25]%float [1; 2]%float in
  IIRFilter.set_coefficients (IIRFilter.init 2) [1; 0]%float [1; 0; 0]%float
  = inl ConfigurationError
  /\ IIRFilter.set_coefficients (IIRFilter.init 2) [1; 0; 0]%float
       [1; 0; 0; 0]%float
     = inl ConfigurationError
  /\ IIRFilter.set_coefficients (IIRFilter.init 10) (repeat 1%float 10)
       (repeat 1%float 11)
     = inl ConfigurationError
  /\ IIRFilter.set_coefficients (IIRFilter.init 10) (repeat 1%float 11)
       (repeat 1%float 12)
     = inl ConfigurationError
  /\ exists f,
       IIRFilter.set_coefficients used [1; 0; 0]%float [1; 2; 3]%float = inr f
       /\ IIRFilter.input_history f = [0.5; 0.25]%float
       /\ IIRFilter.output_history f = [1; 2]%float.
Proof.
  intros used.
  split; [| split; [| split; [| split]]].
  - apply (proj1 (set_coefficients_lengths (IIRFilter.init 2) _ _)).
    left. simpl. lia.
  - apply (proj1 (set_coefficients_lengths (IIRFilter.init 2) _ _)).
    right. simpl. lia.
  - apply (proj1 (set_coefficients_lengths (IIRFilter.init 10) _ _)).
    left. simpl. lia.
  - apply (proj1 (set_coefficients_lengths (IIRFilter.init 10) _ _)).
    right. simpl. lia.
  - destruct (set_coefficients_lengths used [1; 0; 0]%float [1; 2; 3]%float)
      as [_ Hok].
    destruct (Hok eq_refl eq_refl) as (f & Hf & _ & _ & _ & Hin & Hout).
    exists f. split; [exact Hf | split; [exact Hin | exact Hout]].
Defined.

(** The history buffers keep their size under [process]. *)
Lemma process_history_length (f : IIRFilter.t) (x : float) :
  List.length (IIRFilter.input_history (snd (IIRFilter.process f x)))
  = List.length (IIRFilter.input_history f)
  /\ List.length (IIRFilter.output_history (snd (IIRFilter.process f x)))
     = List.length (IIRFilter.output_history f).
Proof.
  cbn [IIRFilter.process snd IIRFilter.input_history
         IIRFilter.output_history].
  split.
  - destruct (IIRFilter.input_history f) as [| h t]; [reflexivity |].
    cbn [app tl]. rewrite length_app. simpl. lia.
  - destruct (IIRFilter.output_history f) as [| h t]; [reflexivity |].
    cbn [app tl]. rewrite length_app. simpl. lia.
Qed.

Lemma process_config (f : IIRFilter.t) (x : float) :
  config (snd (IIRFilter.process f x)) = config f.
Proof. reflexivity. Qed.

(** ** The cascade *)

(** On whole streams the cascade's outputs are the butterworth stage's
    outputs on the yulewalk stage's outputs. *)
Lemma process_all_is_cascade (xs : list float) : forall self,
  fst (process_all self xs)
  = fst (IIRFilter.process_all (butterworth_filter self)
           (fst (IIRFilter.process_all (yulewalk_filter self) xs))).
Proof.
  induction xs as [| x rest IH]; intros self; [reflexivity |].
  cbn [process_all IIRFilter.process_all].
  unfold process.
  destruct (IIRFilter.process (yulewalk_filter self) x) as [tmp y'] eqn:Hy.
  cbn [fst snd].
  destruct (IIRFilter.process (butterworth_filter self) tmp) as [out b'] eqn:Hb.
  cbn [fst snd].
  specialize (IH {| yulewalk_filter := y'; butterworth_filter := b' |}).
  cbn [yulewalk_filter butterworth_filter] in IH.
  destruct (process_all _ rest) as [ys c''].
  destruct (IIRFilter.process_all y' rest) as [ts y''].
  cbn [fst snd] in *. cbn [IIRFilter.process_all]. rewrite Hb.
  destruct (IIRFilter.process_all b' ts) as [os b''].
  cbn [fst] in *. congruence.
Qed.

(** C2: one [process] call of the cascade runs the yulewalk stage on the
    sample, runs the butterworth stage on that stage's output and returns
    the butterworth output, each stage being left in the state its own
    [process] call produced; hence over a stream the cascade returns the
    butterworth stage's outputs on the yulewalk stage's outputs. *)
Theorem process_is_cascade (self : t) :
  (forall x,
     let shaped := IIRFilter.process (yulewalk_filter self) x in
     let passed := IIRFilter.process (butterworth_filter self) (fst shaped) in
     process self x
     = (fst passed,
        {| yulewalk_filter := snd shaped; butterworth_filter := snd passed |}))
  /\ (forall xs,
        fst (process_all self xs)
        = fst (IIRFilter.process_all (butterworth_filter self)
                 (fst (IIRFilter.process_all (yulewalk_filter self) xs)))).
Proof.
  split.
  - intros x. reflexivity.
  - intros xs. apply process_all_is_cascade.
Qed.

Lemma step_config (self : t) (c : call) :
  config (yulewalk_filter (step self c)) = config (yulewalk_filter self)
  /\ config (butterworth_filter (step self c))
     = config (butterworth_filter self).
Proof. destruct c; split; reflexivity. Qed.

Lemma run_config (calls : list call) : forall self,
  config (yulewalk_filter (run self calls)) = config (yulewalk_filter self)
  /\ config (butterworth_filter (run self calls))
     = config (butterworth_filter self).
Proof.
  unfold run.
  induction calls as [| c rest IH]; intros self; simpl; [split; reflexivity |].
  destruct (IH (step self c)) as [Hy Hb].
  destruct (step_config self c) as [Hy' Hb'].
  split; congruence.
Qed.

Lemma reset_by_config (self other : t) :
  config (yulewalk_filter self) = config (yulewalk_filter other) ->
  config (butterworth_filter self) = config (butterworth_filter other) ->
  reset self = reset other.
Proof.
  unfold config, reset, with_histories.
  intros [= Hy1 Hy2 Hy3] [= Hb1 Hb2 Hb3].
  rewrite Hy1, Hy2, Hy3, Hb1, Hb2, Hb3. reflexivity.
Qed.

Lemma reset_cascade_of (c : coeffs) : reset (cascade_of c) = cascade_of c.
Proof. reflexivity. Qed.

(** Whatever a cascade went through since its construction, [reset] puts
    it back into the state its constructor left. *)
Lemma reset_run_fresh (sr : Z) (fresh : t) (calls : list call) :
  init sr = inr fresh -> reset (run fresh calls) = fresh.
Proof.
  intros Hinit.
  destruct (init_inv _ _ Hinit) as (c & _ & ->).
  destruct (run_config calls (cascade_of c)) as [Hy Hb].
  rewrite (reset_by_config _ _ Hy Hb).
  apply reset_cascade_of.
Qed.

Lemma process_zero_fresh (sr : Z) (fresh : t) :
  init sr = inr fresh -> fst (process fresh 0%float) = 0%float.
Proof.
  intros Hinit.
  destruct (init_inv _ _ Hinit) as (c & Hget & ->).
  destruct (table_cases _ _ Hget) as [[_ ->] | [[_ ->] | [_ ->]]];
    vm_compute; reflexivity.
Qed.

(** C4: on a cascade just constructed for any rate of the table, and on a
    cascade reset after any use, [process(0.0)] returns [0.0]. *)
Theorem zero_state_zero_input (sr : Z) (fresh : t) :
  init sr = inr fresh ->
  fst (process fresh 0%float) = 0%float
  /\ forall calls, fst (process (reset (run fresh calls)) 0%float) = 0%float.
Proof.
  intros Hinit. split.
  - exact (process_zero_fresh _ _ Hinit).
  - intros calls. rewrite (reset_run_fresh _ _ calls Hinit).
    exact (process_zero_fresh _ _ Hinit).
Qed.

Lemma zero_state_zero_input_witness :
  init 48000 = inr (cascade_of coeffs_48000)
  /\ fst (process (cascade_of coeffs_48000) 0%float) = 0%float
  /\ fst (process
            (reset (run (cascade_of coeffs_48000)
                      [Process 1%float; Process (-0.5)%float]))
            0%float)
     = 0%float.
Proof.
  split; [reflexivity |].
  destruct (zero_state_zero_input 48000 (cascade_of coeffs_48000) eq_refl)
    as [Hfresh Hreset].
  split; [exact Hfresh | apply Hreset].
Defined.

Lemma zeroed_zeros (n : Z) : zeroed (Z.to_nat n) (zeros n).
Proof.
  unfold zeroed, zeros. split.
  - apply repeat_length.
  - apply Forall_forall. intros x Hx. exact (repeat_spec _ _ _ Hx).
Qed.

(** C5: after [reset] each of the four history buffers consists of zeros
    and has as many entries as the order of its own stage (read as a
    number of entries, [Z.to_nat]), and the order
    and both coefficient vectors of each stage are what they were; on a
    cascade built by the constructor, whatever was done with it since, the
    buffers have 10 entries in the yulewalk stage and 2 in the butterworth
    stage. *)
Theorem reset_zeroes_histories (self : t) :
  let y := yulewalk_filter self in
  let b := butterworth_filter self in
  let y' := yulewalk_filter (reset self) in
  let b' := butterworth_filter (reset self) in
  (zeroed (Z.to_nat (IIRFilter.order y)) (IIRFilter.input_history y')
   /\ zeroed (Z.to_nat (IIRFilter.order y)) (IIRFilter.output_history y')
   /\ zeroed (Z.to_nat (IIRFilter.order b)) (IIRFilter.input_history b')
   /\ zeroed (Z.to_nat (IIRFilter.order b)) (IIRFilter.output_history b'))
  /\ (IIRFilter.order y' = IIRFilter.order y
      /\ IIRFilter.feedback y' = IIRFilter.feedback y
      /\ IIRFilter.feedforward y' = IIRFilter.feedforward y
      /\ IIRFilter.order b' = IIRFilter.order b
      /\ IIRFilter.feedback b' = IIRFilter.feedback b
      /\ IIRFilter.feedforward b' = IIRFilter.feedforward b)
  /\ (forall sr fresh calls,
        init sr = inr fresh -> self = run fresh calls ->
        IIRFilter.order y = 10 /\ IIRFilter.order b = 2
        /\ List.length (IIRFilter.input_history y') = 10%nat
        /\ List.length (IIRFilter.output_history y') = 10%nat
        /\ List.length (IIRFilter.input_history b') = 2%nat
        /\ List.length (IIRFilter.output_history b') = 2%nat).
Proof.
  cbv zeta. split; [| split].
  - unfold reset; cbn [yulewalk_filter butterworth_filter with_histories
                         IIRFilter.input_history IIRFilter.output_history].
    repeat split; apply zeroed_zeros.
  - repeat split.
  - intros sr fresh calls Hinit ->.
    destruct (init_inv _ _ Hinit) as (c & _ & Hfresh).
    destruct (run_config calls fresh) as [Hy Hb].
    rewrite Hfresh in Hy at 2. rewrite Hfresh in Hb at 2.
    unfold config in Hy, Hb. cbn in Hy, Hb.
    injection Hy as Hy _ _. injection Hb as Hb _ _.
    unfold reset; cbn [yulewalk_filter butterworth_filter with_histories
                         IIRFilter.input_history IIRFilter.output_history].
    rewrite Hy, Hb. unfold zeros. rewrite !repeat_length.
    repeat split.
Qed.

Lemma reset_zeroes_histories_witness :
  let used := run (cascade_of coeffs_32000) [Process 1%float; Process 2%float] in
  IIRFilter.input_history (yulewalk_filter used)
  = (repeat 0%float 8 ++ [1; 2])%float
  /\ List.length (IIRFilter.input_history (yulewalk_filter (reset used)))
     = 10%nat
  /\ List.length (IIRFilter.output_history (butterworth_filter (reset used)))
     = 2%nat
  /\ IIRFilter.feedback (butterworth_filter (reset used))
     = butter_a coeffs_32000.
Proof.
  intros used. split; [reflexivity |].
  destruct (reset_zeroes_histories used) as (_ & Hframe & Hbuilt).
  destruct (Hbuilt 32000 (cascade_of coeffs_32000)
              [Process 1%float; Process 2%float] eq_refl eq_refl)
    as (_ & _ & Hyi & _ & _ & Hbo).
  split; [exact Hyi | split; [exact Hbo |]].
  destruct Hframe as (_ & _ & _ & _ & Hfb & _).
  rewrite Hfb. reflexivity.
Defined.

(** C6: after any sequence of calls on a constructed cascade, [reset]
    followed by [process(x)] returns what [process(x)] returns on a cascade
    just constructed for the same rate (and leaves the same state). *)
Theorem reset_equivalence (sr : Z) (fresh : t) (calls : list call) (x : float) :
  init sr = inr fresh ->
  process (reset (run fresh calls)) x = process fresh x.
Proof.
  intros Hinit. rewrite (reset_run_fresh _ _ calls Hinit). reflexivity.
Qed.

Lemma reset_equivalence_witness :
  init 44100 = inr (cascade_of coeffs_44100)
  /\ fst (process (run (cascade_of coeffs_44100)
                     [Process 1%float; Process 0.25%float; Process (-3)%float])
            0.5%float)
     <> fst (process (cascade_of coeffs_44100) 0.5%float)
  /\ process
       (reset (run (cascade_of coeffs_44100)
                 [Process 1%float; Process 0.25%float; Process (-3)%float]))
       0.5%float
     = process (cascade_of coeffs_44100) 0.5%float.
Proof.
  split; [reflexivity | split].
  - intros Heq.
    apply (f_equal (fun y => PrimFloat.eqb y 0.026686930428201%float)) in Heq.
    vm_compute in Heq. discriminate Heq.
  - apply (reset_equivalence 44100). reflexivity.
Defined.

(** * Further properties of the cascade *)

(** ** What every reachable cascade satisfies *)

Lemma step_sized (self : t) (c : call) :
  let fits f := sized (Z.to_nat (IIRFilter.order f)) f in
  fits (yulewalk_filter self) /\ fits (butterworth_filter self) ->
  fits (yulewalk_filter (step self c))
  /\ fits (butterworth_filter (step self c)).
Proof.
  cbv zeta. unfold sized. intros [[Hyi Hyo] [Hbi Hbo]].
  destruct c as [x |].
  - cbn [step]. unfold process.
    destruct (process_history_length (yulewalk_filter self) x) as [Li Lo].
    destruct (IIRFilter.process (yulewalk_filter self) x) as [tmp y'] eqn:Hy.
    destruct (process_history_length (butterworth_filter self) tmp)
      as [Mi Mo].
    destruct (IIRFilter.process (butterworth_filter self) tmp)
      as [out b'] eqn:Hb.
    cbn [snd yulewalk_filter butterworth_filter] in *.
    assert (Oy : IIRFilter.order y' = IIRFilter.order (yulewalk_filter self))
      by (injection Hy as _ <-; reflexivity).
    assert (Ob : IIRFilter.order b'
                 = IIRFilter.order (butterworth_filter self))
      by (injection Hb as _ <-; reflexivity).
    rewrite Oy, Ob. repeat split; congruence.
  - cbn [step reset yulewalk_filter butterworth_filter with_histories
           IIRFilter.order IIRFilter.input_history IIRFilter.output_history].
    unfold zeros. rewrite !repeat_length. repeat split.
Qed.

Lemma run_sized (calls : list call) : forall self,
  let fits f := sized (Z.to_nat (IIRFilter.order f)) f in
  fits (yulewalk_filter self) /\ fits (butterworth_filter self) ->
  fits (yulewalk_filter (run self calls))
  /\ fits (butterworth_filter (run self calls)).
Proof.
  unfold run.
  induction calls as [| c rest IH]; intros self Hfits; simpl;
    [exact Hfits |].
  apply IH. apply (step_sized self c). exact Hfits.
Qed.

(** X1: whatever calls a constructed cascade has received, its yulewalk
    stage still has order 10 and the yulewalk vectors of its table entry,
    its butterworth stage order 2 and the butterworth vectors, and the
    histories still hold 10 and 2 entries. *)
Theorem reachable_invariant (sr : Z) (fresh : t) (calls : list call) :
  init sr = inr fresh ->
  exists c,
    dict_get sr _REPLAYGAIN_COEFFS = Some c
    /\ config (yulewalk_filter (run fresh calls)) = (10, yule_a c, yule_b c)
    /\ config (butterworth_filter (run fresh calls))
       = (2, butter_a c, butter_b c)
    /\ sized 10 (yulewalk_filter (run fresh calls))
    /\ sized 2 (butterworth_filter (run fresh calls)).
Proof.
  intros Hinit.
  destruct (init_inv _ _ Hinit) as (c & Hget & ->).
  exists c. split; [exact Hget |].
  destruct (run_config calls (cascade_of c)) as [Hy Hb].
  assert (Hfresh : sized (Z.to_nat 10) (yulewalk_filter (cascade_of c))
                   /\ sized (Z.to_nat 2) (butterworth_filter (cascade_of c)))
    by (repeat split).
  destruct (run_sized calls (cascade_of c) Hfresh) as [Sy Sb].
  split; [exact Hy | split; [exact Hb |]].
  unfold config in Hy, Hb.
  injection Hy as Oy _ _. injection Hb as Ob _ _.
  rewrite Oy in Sy. rewrite Ob in Sb.
  split; [exact Sy | exact Sb].
Qed.

Lemma reachable_invariant_witness :
  let used :=
    run (cascade_of coeffs_48000)
      [Process 1%float; Reset; Process 0.5%float; Process (-1)%float] in
  config (butterworth_filter used)
  = (2, butter_a coeffs_48000, butter_b coeffs_48000)
  /\ sized 10 (yulewalk_filter used).
Proof.
  intros used.
  destruct (reachable_invariant 48000 (cascade_of coeffs_48000)
              [Process 1%float; Reset; Process 0.5%float; Process (-1)%float]
              eq_refl)
    as (c & Hget & _ & Hb & Sy & _).
  injection Hget as <-.
  split; [exact Hb | exact Sy].
Defined.

(** ** Silence *)

Lemma process_zero_fixed (sr : Z) (fresh : t) :
  init sr = inr fresh -> process fresh 0%float = (0%float, fresh).
Proof.
  intros Hinit.
  destruct (init_inv _ _ Hinit) as (c & Hget & ->).
  destruct (table_cases _ _ Hget) as [[_ ->] | [[_ ->] | [_ ->]]];
    vm_compute; reflexivity.
Qed.

Lemma process_all_fixed (self : t) (x y : float) (n : nat) :
  process self x = (y, self) ->
  process_all self (repeat x n) = (repeat y n, self).
Proof.
  intros Hfix. induction n as [| n IH]; [reflexivity |].
  cbn [repeat process_all]. rewrite Hfix, IH. reflexivity.
Qed.

(** X2: a cascade that was just constructed, or reset after any use,
    answers a run of [n] samples [0.0] with [n] outputs [0.0] and is
    afterwards again in the state the constructor left. *)
Theorem silence_in_silence_out (sr : Z) (fresh : t) (calls : list call)
    (n : nat) :
  init sr = inr fresh ->
  process_all fresh (repeat 0%float n) = (repeat 0%float n, fresh)
  /\ process_all (reset (run fresh calls)) (repeat 0%float n)
     = (repeat 0%float n, fresh).
Proof.
  intros Hinit.
  rewrite (reset_run_fresh _ _ calls Hinit).
  split; apply process_all_fixed, (process_zero_fixed _ _ Hinit).
Qed.

Lemma silence_in_silence_out_witness :
  process_all (cascade_of coeffs_32000) (repeat 0%float 5)
  = (repeat 0%float 5, cascade_of coeffs_32000)
  /\ fst (process_all
            (reset (run (cascade_of coeffs_32000) [Process 1%float]))
            (repeat 0%float 5))
     = repeat 0%float 5.
Proof.
  destruct (silence_in_silence_out 32000 (cascade_of coeffs_32000)
              [Process 1%float] 5 eq_refl) as [Hfresh Hreset].
  split; [exact Hfresh | rewrite Hreset; reflexivity].
Defined.

(** ** Reset *)

(** X3: on any cascade, [reset] after any sequence of calls gives the
    state that [reset] alone gives; in particular resetting twice is
    resetting once, and nothing that was processed survives a reset. *)
Theorem reset_absorbs (self : t) (calls : list call) :
  reset (run self calls) = reset self.
Proof.
  destruct (run_config calls self) as [Hy Hb].
  exact (reset_by_config _ _ Hy Hb).
Qed.

(** ** The first stage never sees the second *)

Lemma step_yulewalk (self other : t) (c : call) :
  yulewalk_filter self = yulewalk_filter other ->
  yulewalk_filter (step self c) = yulewalk_filter (step other c).
Proof.
  intros Heq. destruct c as [x |].
  - cbn [step]. unfold process. rewrite <- Heq.
    destruct (IIRFilter.process (yulewalk_filter self) x) as [tmp y'].
    destruct (IIRFilter.process (butterworth_filter self) tmp).
    destruct (IIRFilter.process (butterworth_filter other) tmp).
    reflexivity.
  - cbn [step reset yulewalk_filter]. rewrite Heq. reflexivity.
Qed.

(** X4: the state of the yulewalk stage after any sequence of calls is
    determined by its state before them and by the calls: two cascades
    that agree on the yulewalk stage keep agreeing on it, whatever their
    butterworth stages are. *)
Theorem yulewalk_ignores_butterworth (calls : list call) (self other : t) :
  yulewalk_filter self = yulewalk_filter other ->
  yulewalk_filter (run self calls) = yulewalk_filter (run other calls).
Proof.
  unfold run. revert self other.
  induction calls as [| c rest IH]; intros self other Heq; simpl;
    [exact Heq |].
  apply IH, step_yulewalk, Heq.
Qed.

Lemma yulewalk_ignores_butterworth_witness :
  let self := cascade_of coeffs_44100 in
  let other :=
    {| yulewalk_filter := yulewalk_filter (cascade_of coeffs_44100);
       butterworth_filter := butterworth_filter (cascade_of coeffs_48000) |} in
  let calls := [Process 1%float; Process 0.5%float; Reset; Process 2%float] in
  butterworth_filter (run self calls) <> butterworth_filter (run other calls)
  /\ yulewalk_filter (run self calls) = yulewalk_filter (run other calls).
Proof.
  intros self other calls. split.
  - intros Heq.
    apply (f_equal (fun f => PrimFloat.eqb (nth 1 (IIRFilter.feedback f) 0)
                               (-1.96977855582618))%float) in Heq.
    vm_compute in Heq. discriminate Heq.
  - apply (yulewalk_ignores_butterworth calls self other). reflexivity.
Defined.

(** ** The stages stay chained *)

Lemma tl_skipn_snoc {A : Type} (x : A) (l : list A) : forall k,
  (k < List.length l)%nat -> tl (skipn k l ++ [x]) = skipn (S k) l ++ [x].
Proof.
  induction l as [| a l IH]; intros k Hk; simpl in Hk; [lia |].
  destruct k as [| k]; [reflexivity |].
  rewrite !skipn_cons. apply IH. lia.
Qed.

Lemma skipn_tl_snoc {A : Type} (x : A) (l : list A) (k : nat) :
  (k < List.length l)%nat ->
  skipn k (tl (l ++ [x])) = tl (skipn k l ++ [x]).
Proof.
  intros Hk. rewrite (tl_skipn_snoc x l k Hk).
  destruct l as [| a l]; simpl in Hk; [lia |].
  cbn [app tl]. rewrite skipn_cons, skipn_app.
  replace (k - List.length l)%nat with 0%nat by lia.
  reflexivity.
Qed.

Lemma step_chained (self : t) (c : call) :
  chained self -> chained (step self c).
Proof.
  unfold chained. cbv zeta. intros (Oy & Ob & Ly & Hlink).
  destruct c as [x |].
  - cbn [step]. unfold process.
    destruct (process_history_length (yulewalk_filter self) x) as [_ Lo].
    pose proof (process_config (yulewalk_filter self) x) as Cy.
    assert (Ho : IIRFilter.output_history
                   (snd (IIRFilter.process (yulewalk_filter self) x))
                 = tl (IIRFilter.output_history (yulewalk_filter self)
                         ++ [fst (IIRFilter.process (yulewalk_filter self) x)]))
      by reflexivity.
    destruct (IIRFilter.process (yulewalk_filter self) x) as [tmp y'].
    pose proof (process_config (butterworth_filter self) tmp) as Cb.
    assert (Hi : IIRFilter.input_history
                   (snd (IIRFilter.process (butterworth_filter self) tmp))
                 = tl (IIRFilter.input_history (butterworth_filter self)
                         ++ [tmp]))
      by reflexivity.
    destruct (IIRFilter.process (butterworth_filter self) tmp) as [out b'].
    cbn [fst snd yulewalk_filter butterworth_filter] in *.
    unfold config in Cy, Cb.
    injection Cy as Cy _ _. injection Cb as Cb _ _.
    split; [congruence | split; [congruence | split; [congruence |]]].
    rewrite Hi, Ho, Hlink. symmetry. apply skipn_tl_snoc. lia.
  - cbn [step reset yulewalk_filter butterworth_filter with_histories
           IIRFilter.order IIRFilter.input_history IIRFilter.output_history].
    rewrite Oy, Ob. repeat split.
Qed.

Lemma run_chained (calls : list call) : forall self,
  chained self -> chained (run self calls).
Proof.
  unfold run.
  induction calls as [| c rest IH]; intros self Hc; simpl; [exact Hc |].
  apply IH, step_chained, Hc.
Qed.

(** X5: in a constructed cascade, after any sequence of calls, the two
    inputs the butterworth stage remembers are the two latest of the ten
    outputs the yulewalk stage remembers. *)
Theorem stages_chained (sr : Z) (fresh : t) (calls : list call) :
  init sr = inr fresh ->
  IIRFilter.input_history (butterworth_filter (run fresh calls))
  = skipn 8 (IIRFilter.output_history (yulewalk_filter (run fresh calls))).
Proof.
  intros Hinit.
  destruct (init_inv _ _ Hinit) as (c & _ & ->).
  assert (Hfresh : chained (cascade_of c)) by (repeat split).
  apply (run_chained calls _ Hfresh).
Qed.

Lemma stages_chained_witness :
  let used :=
    run (cascade_of coeffs_44100) [Process 1%float; Process 0%float] in
  IIRFilter.input_history (butterworth_filter used)
  = [0.054186564064300002; 0.15937568966667626]%float
  /\ IIRFilter.input_history (butterworth_filter used)
     = skipn 8 (IIRFilter.output_history (yulewalk_filter used)).
Proof.
  intros used. split; [vm_compute; reflexivity |].
  apply (stages_chained 44100). reflexivity.
Defined.

(** ** The error text *)

Lemma to_int_not_nil (n : Z) :
  Z.to_int n <> Decimal.Pos Decimal.Nil
  /\ Z.to_int n <> Decimal.Neg Decimal.Nil.
Proof.
  destruct n as [| p | p]; simpl; split; intros H;
    try discriminate H; injection H as H;
    exact (DecimalPos.Unsigned.to_uint_nonnil p H).
Qed.

(** Different ints have different decimal numerals. *)
Lemma decimal_inj (a b : Z) : decimal a = decimal b -> a = b.
Proof.
  unfold decimal. intros H.
  apply DecimalZ.to_int_inj.
  apply (f_equal NilZero.int_of_string) in H.
  destruct (to_int_not_nil a) as [Ha Ha'].
  destruct (to_int_not_nil b) as [Hb Hb'].
  rewrite (NilZero.isi _ Ha Ha'), (NilZero.isi _ Hb Hb') in H.
  congruence.
Qed.

Lemma append_length (s t : string) :
  String.length (s ++ t) = (String.length s + String.length t)%nat.
Proof. induction s as [| c s IH]; simpl; [reflexivity | now rewrite IH]. Qed.

Lemma append_inv_tail (t : string) : forall s1 s2 : string,
  (s1 ++ t)%string = (s2 ++ t)%string -> s1 = s2.
Proof.
  induction s1 as [| c1 s1 IH]; intros [| c2 s2] H; simpl in H.
  - reflexivity.
  - apply (f_equal String.length) in H. simpl in H.
    rewrite append_length in H. lia.
  - apply (f_equal String.length) in H. simpl in H.
    rewrite append_length in H. lia.
  - injection H as -> H. f_equal. exact (IH _ H).
Qed.

Lemma init_fails_absent (sr : Z) (e : exception) :
  init sr = inl e -> dict_get sr _REPLAYGAIN_COEFFS = None.
Proof.
  intros Hfail.
  destruct (dict_get sr _REPLAYGAIN_COEFFS) as [c |] eqn:Hget;
    [| reflexivity].
  rewrite (init_of_entry _ _ Hget) in Hfail. discriminate.
Qed.

(** X6: the error of a failed construction identifies the rate that was
    asked for, as long as that rate has at most 4300 digits: a
    construction with any other rate does not fail with the same error. *)
Theorem error_identifies_rate (a b : Z) (e : exception) :
  (digits a <= int_max_str_digits)%nat ->
  a <> b ->
  init a = inl e -> init b <> inl e.
Proof.
  intros Hdigits Hne Ha Hb.
  rewrite (init_absent _ (init_fails_absent _ _ Ha)) in Ha.
  rewrite (init_absent _ (init_fails_absent _ _ Hb)) in Hb.
  apply Nat.ltb_ge in Hdigits. rewrite Hdigits in Ha.
  destruct (int_max_str_digits <? digits b)%nat.
  - rewrite <- Ha in Hb. unfold int_max_str_digits_message in Hb.
    revert Hb. generalize (decimal a). intros d Hb.
    injection Hb as Hb. discriminate Hb.
  - rewrite <- Ha in Hb. injection Hb as Hb.
    apply append_inv_tail, decimal_inj in Hb. congruence.
Qed.

Lemma error_identifies_rate_witness :
  init 8000
  = inl (ValueError
           "Unsupported samplerate 8000. Supported samplerates: 32000, 44100, 48000")
  /\ init 22050
     <> inl (ValueError
               "Unsupported samplerate 8000. Supported samplerates: 32000, 44100, 48000").
Proof.
  split; [vm_compute; reflexivity |].
  apply (error_identifies_rate 8000 22050).
  - vm_compute. lia.
  - lia.
  - vm_compute. reflexivity.
Defined.

(** ** More on the table *)

(** X7: in every entry of the table the butterworth feedforward vector has
    the form [k, -2k, k], so its entries add up to exactly [0.0]: the
    feedforward part of the high-pass stage cancels on equal samples. *)
Theorem butterworth_feedforward_cancels (sr : Z) (c : coeffs) :
  dict_get sr _REPLAYGAIN_COEFFS = Some c ->
  let k := hd nan (butter_b c) in
  butter_b c = [k; -2 * k; k]%float
  /\ IIRFilter.dot (butter_b c) [1; 1; 1]%float = 0%float
  /\ PrimFloat.eqb k 0 = false.
Proof.
  intros Hget.
  destruct (table_cases _ _ Hget) as [[_ ->] | [[_ ->] | [_ ->]]];
    cbv zeta; repeat split; vm_compute; reflexivity.
Qed.

Lemma butterworth_feedforward_cancels_witness :
  butter_b coeffs_32000
  = [0.97938932735214; -2 * 0.97938932735214; 0.97938932735214]%float
  /\ IIRFilter.dot (butter_b coeffs_32000) [1; 1; 1]%float = 0%float.
Proof.
  destruct (butterworth_feedforward_cancels 32000 coeffs_32000 eq_refl)
    as (Hshape & Hsum & _).
  split; [exact Hshape | exact Hsum].
Defined.

(** X8: no rate is written twice in the table, so every profile written
    there is the one its rate looks up. *)
Theorem table_entries_reachable (sr : Z) (c : coeffs) :
  In (sr, c) _REPLAYGAIN_COEFFS ->
  dict_get sr _REPLAYGAIN_COEFFS = Some c /\ NoDup (keys _REPLAYGAIN_COEFFS).
Proof.
  intros Hin. split.
  - simpl in Hin.
    destruct Hin as [[= <- <-] | [[= <- <-] | [[= <- <-] | []]]];
      reflexivity.
  - unfold keys. simpl.
    repeat constructor; simpl; intros H; lia.
Qed.

Lemma table_entries_reachable_witness :
  dict_get 32000 _REPLAYGAIN_COEFFS = Some coeffs_32000.
Proof.
  apply (table_entries_reachable 32000 coeffs_32000).
  simpl. auto.
Defined.


(** * Several cascades in one program *)

(** ** Lists updated by index *)

Lemma update_length {A : Type} (l : list A) : forall i v,
  List.length (update l i v) = List.length l.
Proof.
  induction l as [| x l IH]; intros [| i] v; simpl; auto.
Qed.

Lemma nth_error_update_same {A : Type} (l : list A) : forall i v,
  (i < List.length l)%nat -> nth_error (update l i v) i = Some v.
Proof.
  induction l as [| x l IH]; intros [| i] v Hi; simpl in *; try lia; auto.
  apply IH. lia.
Qed.

Lemma nth_error_update_other {A : Type} (l : list A) : forall i j v,
  i <> j -> nth_error (update l i v) j = nth_error l j.
Proof.
  induction l as [| x l IH]; intros [| i] [| j] v Hne; simpl; auto;
    try contradiction.
Qed.

Lemma nth_update_same {A : Type} (d : A) (l : list A) : forall i v,
  (i < List.length l)%nat -> nth i (update l i v) d = v.
Proof.
  induction l as [| x l IH]; intros [| i] v Hi; simpl in *; try lia; auto.
  apply IH. lia.
Qed.

Lemma nth_update_other {A : Type} (d : A) (l : list A) : forall i j v,
  i <> j -> nth j (update l i v) d = nth j l d.
Proof.
  induction l as [| x l IH]; intros [| i] [| j] v Hne; simpl; auto;
    try contradiction.
Qed.

(** ** Loads and stores *)

Lemma load_store_same (h : Shared.heap) (l : Shared.loc) (v : list float) :
  (l < List.length h)%nat -> Shared.load (Shared.store h l v) l = v.
Proof. apply nth_update_same. Qed.

Lemma load_store_other (h : Shared.heap) (l l' : Shared.loc)
    (v : list float) :
  l <> l' -> Shared.load (Shared.store h l v) l' = Shared.load h l'.
Proof. apply nth_update_other. Qed.

Lemma store_length (h : Shared.heap) (l : Shared.loc) (v : list float) :
  List.length (Shared.store h l v) = List.length h.
Proof. apply update_length. Qed.

Lemma load_app_old (h t : Shared.heap) (l : Shared.loc) :
  (l < List.length h)%nat -> Shared.load (h ++ t) l = Shared.load h l.
Proof. intros Hl. unfold Shared.load. apply app_nth1, Hl. Qed.

Lemma load_app_new (h t : Shared.heap) (k : nat) :
  Shared.load (h ++ t) (List.length h + k)%nat = Shared.load t k.
Proof.
  unfold Shared.load. rewrite app_nth2 by lia. f_equal. lia.
Qed.

Lemma view_stage_frame (h h' : Shared.heap) (s : Shared.stage) :
  Shared.load h' (Shared.feedback s) = Shared.load h (Shared.feedback s) ->
  Shared.load h' (Shared.feedforward s)
  = Shared.load h (Shared.feedforward s) ->
  Shared.load h' (Shared.input_history s)
  = Shared.load h (Shared.input_history s) ->
  Shared.load h' (Shared.output_history s)
  = Shared.load h (Shared.output_history s) ->
  Shared.view_stage h' s = Shared.view_stage h s.
Proof.
  intros Ha Hb Hi Ho. unfold Shared.view_stage.
  rewrite Ha, Hb, Hi, Ho. reflexivity.
Qed.

(** ** One stage, in place *)

(** As long as the two histories of a stage are two lists, and neither is
    one of its coefficient lists, [process] on the objects does what
    [process] on the values does, and touches no other list. *)
Lemma stage_process_refines (h : Shared.heap) (s : Shared.stage)
    (x : float) :
  Shared.input_history s <> Shared.output_history s ->
  (Shared.input_history s < List.length h)%nat ->
  (Shared.output_history s < List.length h)%nat ->
  Shared.feedback s <> Shared.input_history s ->
  Shared.feedback s <> Shared.output_history s ->
  Shared.feedforward s <> Shared.input_history s ->
  Shared.feedforward s <> Shared.output_history s ->
  let r := Shared.stage_process s x h in
  (fst r, Shared.view_stage (snd r) s)
  = IIRFilter.process (Shared.view_stage h s) x
  /\ List.length (snd r) = List.length h
  /\ (forall l, l <> Shared.input_history s ->
                l <> Shared.output_history s ->
                Shared.load (snd r) l = Shared.load h l).
Proof.
  intros Hio Hi Ho Hai Hao Hbi Hbo. cbv zeta.
  unfold Shared.stage_process. cbn [fst snd].
  split; [| split].
  - unfold IIRFilter.process, Shared.view_stage.
    cbn [IIRFilter.order IIRFilter.feedback IIRFilter.feedforward
           IIRFilter.input_history IIRFilter.output_history
           Shared.order Shared.feedback Shared.feedforward
           Shared.input_history Shared.output_history].
    rewrite (load_store_other h _ (Shared.output_history s)) by exact Hio.
    rewrite load_store_same by (rewrite store_length; exact Ho).
    rewrite (load_store_other _ (Shared.output_history s)
               (Shared.input_history s)) by auto.
    rewrite load_store_same by exact Hi.
    rewrite !(load_store_other _ _ (Shared.feedback s)) by auto.
    rewrite !(load_store_other _ _ (Shared.feedforward s)) by auto.
    reflexivity.
  - rewrite !store_length. reflexivity.
  - intros l Hli Hlo. rewrite !load_store_other by auto. reflexivity.
Qed.

(** ** One cascade among the objects *)

Lemma owned_bounds (h : Shared.heap) (c : Shared.cascade) :
  Shared.owned h c ->
  let y := Shared.yulewalk_filter c in
  let b := Shared.butterworth_filter c in
  ((Shared.table_size <= Shared.input_history y < List.length h)%nat
   /\ (Shared.table_size <= Shared.output_history y < List.length h)%nat
   /\ (Shared.table_size <= Shared.input_history b < List.length h)%nat
   /\ (Shared.table_size <= Shared.output_history b < List.length h)%nat)
  /\ (Shared.input_history y <> Shared.output_history y
      /\ Shared.input_history y <> Shared.input_history b
      /\ Shared.input_history y <> Shared.output_history b
      /\ Shared.output_history y <> Shared.input_history b
      /\ Shared.output_history y <> Shared.output_history b
      /\ Shared.input_history b <> Shared.output_history b)
  /\ ((Shared.feedback y < Shared.table_size)%nat
      /\ (Shared.feedforward y < Shared.table_size)%nat
      /\ (Shared.feedback b < Shared.table_size)%nat
      /\ (Shared.feedforward b < Shared.table_size)%nat).
Proof.
  intros (Hnd & Hfoot & Hcoef). cbv zeta.
  unfold Shared.footprint in Hnd, Hfoot.
  unfold Shared.coefficient_refs in Hcoef.
  split; [| split].
  - repeat split; apply Hfoot; simpl; auto.
  - apply NoDup_cons_iff in Hnd. destruct Hnd as [N1 Hnd].
    apply NoDup_cons_iff in Hnd. destruct Hnd as [N2 Hnd].
    apply NoDup_cons_iff in Hnd. destruct Hnd as [N3 _].
    simpl in N1, N2, N3.
    repeat split; lia.
  - repeat split; apply Hcoef; simpl; auto.
Qed.

Lemma process_refines (h : Shared.heap) (c : Shared.cascade) (x : float) :
  Shared.owned h c ->
  let r := Shared.process c x h in
  (fst r, Shared.view (snd r) c) = process (Shared.view h c) x
  /\ List.length (snd r) = List.length h
  /\ (forall l, ~ In l (Shared.footprint c) ->
                Shared.load (snd r) l = Shared.load h l).
Proof.
  intros Hown. cbv zeta.
  destruct (owned_bounds _ _ Hown)
    as ((Biy & Boy & Bib & Bob) & (D1 & D2 & D3 & D4 & D5 & D6)
        & (Cay & Cby & Cab & Cbb)).
  unfold Shared.process, process, Shared.view.
  cbn [yulewalk_filter butterworth_filter].
  destruct (stage_process_refines h (Shared.yulewalk_filter c) x)
    as (Ry & Ly & Fy); try lia.
  destruct (Shared.stage_process (Shared.yulewalk_filter c) x h)
    as [tmp h1] eqn:E1.
  cbn [fst snd] in Ry, Ly, Fy.
  destruct (stage_process_refines h1 (Shared.butterworth_filter c) tmp)
    as (Rb & Lb & Fb); try lia.
  destruct (Shared.stage_process (Shared.butterworth_filter c) tmp h1)
    as [out h2] eqn:E2.
  cbn [fst snd] in Rb, Lb, Fb |- *.
  assert (Vb : Shared.view_stage h1 (Shared.butterworth_filter c)
               = Shared.view_stage h (Shared.butterworth_filter c))
    by (apply view_stage_frame; apply Fy; lia).
  assert (Vy : Shared.view_stage h2 (Shared.yulewalk_filter c)
               = Shared.view_stage h1 (Shared.yulewalk_filter c))
    by (apply view_stage_frame; apply Fb; lia).
  rewrite <- Ry, <- Vb, <- Rb, Vy.
  split; [reflexivity | split; [lia |]].
  intros l Hl. unfold Shared.footprint in Hl. simpl in Hl.
  rewrite Fb by lia. rewrite Fy by lia. reflexivity.
Qed.

Lemma reset_unfold (h : Shared.heap) (c : Shared.cascade) :
  let zy := zeros (Shared.order (Shared.yulewalk_filter c)) in
  let zb := zeros (Shared.order (Shared.butterworth_filter c)) in
  Shared.reset c h
  = ({| Shared.yulewalk_filter :=
          Shared.with_histories (Shared.yulewalk_filter c)
            (List.length h + 0)%nat (List.length h + 1)%nat;
        Shared.butterworth_filter :=
          Shared.with_histories (Shared.butterworth_filter c)
            (List.length h + 2)%nat (List.length h + 3)%nat |},
     h ++ [zy; zy; zb; zb]).
Proof.
  cbv zeta. unfold Shared.reset, Shared.alloc.
  rewrite <- !app_assoc. cbn [app]. rewrite !length_app. cbn [List.length].
  repeat f_equal; lia.
Qed.

Lemma stage_init_unfold (n : Z) (h : Shared.heap) :
  let z := repeat 0%float (Z.to_nat n) in
  Shared.stage_init n h
  = ({| Shared.order := n;
        Shared.feedback := (List.length h + 0)%nat;
        Shared.feedforward := (List.length h + 1)%nat;
        Shared.input_history := (List.length h + 2)%nat;
        Shared.output_history := (List.length h + 3)%nat |},
     h ++ [[]; []; z; z]).
Proof.
  cbv zeta. unfold Shared.stage_init, Shared.alloc.
  rewrite <- !app_assoc. cbn [app]. rewrite !length_app. cbn [List.length].
  repeat f_equal; lia.
Qed.

(** On the objects [reset] does what [reset] on the values does; its four
    lists are new, and no list that existed is changed. *)
Lemma reset_refines (h : Shared.heap) (c : Shared.cascade) :
  (forall l, In l (Shared.coefficient_refs c) -> (l < List.length h)%nat) ->
  let r := Shared.reset c h in
  Shared.view (snd r) (fst r) = reset (Shared.view h c)
  /\ (exists t, snd r = h ++ t /\ List.length t = 4%nat)
  /\ Shared.footprint (fst r)
     = [ (List.length h + 0)%nat; (List.length h + 1)%nat;
         (List.length h + 2)%nat; (List.length h + 3)%nat ]
  /\ Shared.coefficient_refs (fst r) = Shared.coefficient_refs c.
Proof.
  intros Hcoef. cbv zeta. rewrite reset_unfold. cbn [fst snd].
  split; [| split; [eexists; split; reflexivity | split; reflexivity]].
  unfold Shared.view, Shared.view_stage, reset, with_histories,
    Shared.with_histories.
  cbn [yulewalk_filter butterworth_filter
         Shared.yulewalk_filter Shared.butterworth_filter
         IIRFilter.order IIRFilter.feedback IIRFilter.feedforward
         IIRFilter.input_history IIRFilter.output_history
         Shared.order Shared.feedback Shared.feedforward
         Shared.input_history Shared.output_history].
  rewrite !load_app_new.
  rewrite !load_app_old
    by (apply Hcoef; unfold Shared.coefficient_refs; simpl; auto).
  reflexivity.
Qed.

(** ** The table among the objects *)

Lemma module_table_cases (sr : Z) :
  (dict_get sr Shared.module_table = None
   /\ dict_get sr _REPLAYGAIN_COEFFS = None)
  \/ exists refs c,
       dict_get sr Shared.module_table = Some refs
       /\ dict_get sr _REPLAYGAIN_COEFFS = Some c
       /\ (Shared.load Shared.module_heap (Shared.yule_a_ref refs) = yule_a c
           /\ Shared.load Shared.module_heap (Shared.yule_b_ref refs)
              = yule_b c
           /\ Shared.load Shared.module_heap (Shared.butter_a_ref refs)
              = butter_a c
           /\ Shared.load Shared.module_heap (Shared.butter_b_ref refs)
              = butter_b c)
       /\ ((Shared.yule_a_ref refs < Shared.table_size)%nat
           /\ (Shared.yule_b_ref refs < Shared.table_size)%nat
           /\ (Shared.butter_a_ref refs < Shared.table_size)%nat
           /\ (Shared.butter_b_ref refs < Shared.table_size)%nat)
       /\ (List.length (yule_a c) = 11%nat
           /\ List.length (yule_b c) = 11%nat
           /\ List.length (butter_a c) = 3%nat
           /\ List.length (butter_b c) = 3%nat).
Proof.
  assert (Htable :
            Shared.module_table
            = [ (44100, Shared.mkRefs 0%nat 1%nat 2%nat 3%nat);
                (48000, Shared.mkRefs 4%nat 5%nat 6%nat 7%nat);
                (32000, Shared.mkRefs 8%nat 9%nat 10%nat 11%nat) ])
    by reflexivity.
  rewrite Htable. unfold _REPLAYGAIN_COEFFS, dict_get.
  destruct (Z.eqb_spec sr 44100);
    [right; eexists; eexists; split; [reflexivity |];
     split; [reflexivity |];
     repeat split; vm_compute; try reflexivity; lia |].
  destruct (Z.eqb_spec sr 48000);
    [right; eexists; eexists; split; [reflexivity |];
     split; [reflexivity |];
     repeat split; vm_compute; try reflexivity; lia |].
  destruct (Z.eqb_spec sr 32000);
    [right; eexists; eexists; split; [reflexivity |];
     split; [reflexivity |];
     repeat split; vm_compute; try reflexivity; lia |].
  left. split; reflexivity.
Qed.

Lemma set_coefficients_ok (s : Shared.stage) (a b : Shared.loc)
    (h : Shared.heap) :
  Z.of_nat (List.length (Shared.load h a)) = Shared.order s + 1 ->
  Z.of_nat (List.length (Shared.load h b)) = Shared.order s + 1 ->
  Shared.set_coefficients s a b h
  = inr {| Shared.order := Shared.order s;
           Shared.feedback := a;
           Shared.feedforward := b;
           Shared.input_history := Shared.input_history s;
           Shared.output_history := Shared.output_history s |}.
Proof.
  intros Ha Hb. unfold Shared.set_coefficients.
  apply Z.eqb_eq in Ha, Hb. rewrite Ha, Hb. reflexivity.
Qed.

Lemma unsupported_raises (sr : Z) :
  exists e, forall A : Type,
    (msg <- unsupported_message sr ;; @raise A (ValueError msg)) = inl e.
Proof.
  destruct (unsupported_message sr) as [e | msg]; eexists; reflexivity.
Qed.

(** Construction among the objects: it fails as construction of a value
    fails, without a trace among the objects; when it succeeds, the new
    cascade has the value the constructor gives, its histories are new
    lists, its coefficients are lists of the table, and no list that
    existed is changed. *)
Lemma init_refines (h : Shared.heap) (sr : Z) :
  (Shared.table_size <= List.length h)%nat ->
  (forall l, (l < Shared.table_size)%nat ->
             Shared.load h l = Shared.load Shared.module_heap l) ->
  let r := Shared.init sr h in
  match fst r with
  | inl e => init sr = inl e /\ snd r = h
  | inr c =>
      init sr = inr (Shared.view (snd r) c)
      /\ (exists t, snd r = h ++ t)
      /\ NoDup (Shared.footprint c)
      /\ (forall l, In l (Shared.footprint c) ->
            (List.length h <= l)%nat /\ (l < List.length (snd r))%nat)
      /\ (forall l, In l (Shared.coefficient_refs c) ->
            (l < Shared.table_size)%nat)
  end.
Proof.
  intros Hsize Hintact. cbv zeta.
  destruct (module_table_cases sr)
    as [[Hrefs Hpure]
       | (refs & c & Hrefs & Hpure & (Lya & Lyb & Lba & Lbb)
          & (Bya & Byb & Bba & Bbb) & (Nya & Nyb & Nba & Nbb))].
  - destruct (unsupported_raises sr) as [e He].
    unfold Shared.init, init, dict_contains.
    rewrite Hrefs, Hpure. cbn [negb fst snd]. rewrite !He.
    split; reflexivity.
  - unfold Shared.init, dict_contains, dict_getitem. rewrite Hrefs.
    cbn [negb ret]. rewrite stage_init_unfold. cbv zeta.
    rewrite set_coefficients_ok;
      [| cbn [Shared.order];
         rewrite load_app_old, Hintact by lia;
         (rewrite Lya || rewrite Lyb); (rewrite Nya || rewrite Nyb);
         reflexivity ..].
    rewrite stage_init_unfold. cbv zeta.
    rewrite set_coefficients_ok;
      [| cbn [Shared.order];
         rewrite !load_app_old, Hintact by (rewrite ?length_app; lia);
         (rewrite Lba || rewrite Lbb); (rewrite Nba || rewrite Nbb);
         reflexivity ..].
    cbn [fst snd Shared.order Shared.input_history Shared.output_history].
    split; [| split; [| split; [| split]]].
    + rewrite (init_of_entry _ _ Hpure). f_equal.
      unfold Shared.view, Shared.view_stage, cascade_of.
      cbn [Shared.yulewalk_filter Shared.butterworth_filter
             Shared.order Shared.feedback Shared.feedforward
             Shared.input_history Shared.output_history].
      rewrite !load_app_new.
      rewrite !(load_app_old (h ++ _))
        by (rewrite length_app; cbn [List.length]; lia).
      rewrite !load_app_new.
      rewrite !load_app_old by lia.
      rewrite !Hintact by lia.
      rewrite Lya, Lyb, Lba, Lbb. reflexivity.
    + rewrite <- app_assoc. eexists. reflexivity.
    + unfold Shared.footprint.
      cbn [Shared.yulewalk_filter Shared.butterworth_filter
             Shared.input_history Shared.output_history].
      rewrite length_app. cbn [List.length].
      repeat constructor; simpl; lia.
    + unfold Shared.footprint.
      cbn [Shared.yulewalk_filter Shared.butterworth_filter
             Shared.input_history Shared.output_history].
      rewrite !length_app. cbn [List.length].
      intros l Hl. simpl in Hl. lia.
    + unfold Shared.coefficient_refs.
      cbn [Shared.yulewalk_filter Shared.butterworth_filter
             Shared.feedback Shared.feedforward].
      intros l Hl. simpl in Hl. lia.
Qed.

(** ** The invariant of a running program *)

Lemma nth_error_snoc {A : Type} (l : list A) (x y : A) (i : nat) :
  nth_error (l ++ [x]) i = Some y ->
  ((i < List.length l)%nat /\ nth_error l i = Some y)
  \/ (i = List.length l /\ y = x).
Proof.
  intros H. destruct (Nat.lt_ge_cases i (List.length l)) as [Hlt | Hge].
  - left. rewrite nth_error_app1 in H by exact Hlt. auto.
  - right. rewrite nth_error_app2 in H by exact Hge.
    destruct (i - List.length l)%nat as [| k] eqn:Hk; simpl in H.
    + split; [lia | congruence].
    + destruct k; discriminate H.
Qed.

Lemma nth_error_update_inv {A : Type} (l : list A) (i k : nat) (v y : A) :
  nth_error (update l i v) k = Some y ->
  (k = i /\ y = v) \/ (k <> i /\ nth_error l k = Some y).
Proof.
  intros H. destruct (Nat.eq_dec k i) as [-> | Hne].
  - left. split; [reflexivity |].
    assert (Hi : (i < List.length l)%nat).
    { rewrite <- (update_length l i v). apply nth_error_Some. congruence. }
    rewrite nth_error_update_same in H by exact Hi. congruence.
  - right. split; [exact Hne |].
    rewrite nth_error_update_other in H by auto. exact H.
Qed.

Lemma owned_grows (h h' : Shared.heap) (c : Shared.cascade) :
  (List.length h <= List.length h')%nat ->
  Shared.owned h c -> Shared.owned h' c.
Proof.
  intros Hlen (Hnd & Hfoot & Hcoef).
  split; [exact Hnd | split; [| exact Hcoef]].
  intros l Hl. destruct (Hfoot l Hl). lia.
Qed.

Lemma view_frame (h h' : Shared.heap) (c : Shared.cascade) :
  (forall l, In l (Shared.footprint c) ->
             Shared.load h' l = Shared.load h l) ->
  (forall l, In l (Shared.coefficient_refs c) ->
             Shared.load h' l = Shared.load h l) ->
  Shared.view h' c = Shared.view h c.
Proof.
  intros Hfoot Hcoef. unfold Shared.view.
  f_equal; apply view_stage_frame;
    first [ solve [apply Hfoot; unfold Shared.footprint; simpl; auto 6]
          | solve [apply Hcoef; unfold Shared.coefficient_refs; simpl;
                   auto 6] ].
Qed.

Lemma view_old (h t : Shared.heap) (c : Shared.cascade) :
  (Shared.table_size <= List.length h)%nat ->
  Shared.owned h c ->
  Shared.view (h ++ t) c = Shared.view h c.
Proof.
  intros Hsize (_ & Hfoot & Hcoef).
  apply view_frame; intros l Hl; apply load_app_old.
  - destruct (Hfoot l Hl). lia.
  - specialize (Hcoef l Hl). lia.
Qed.

Lemma step_new_refines (st st' : Shared.state) (sr : Z) (ev : list event) :
  Shared.wf st ->
  Shared.step st (New sr) = Some (ev, st') ->
  Values.step (Shared.views st) (New sr) = Some (ev, Shared.views st')
  /\ Shared.wf st'.
Proof.
  destruct st as [h insts].
  intros (Hsize & Hintact & Hown & Hsep) Hstep.
  cbn [Shared.objects Shared.instances] in *.
  unfold Shared.step in Hstep. cbn [Shared.objects Shared.instances] in Hstep.
  pose proof (init_refines h sr Hsize Hintact) as R. cbv zeta in R.
  destruct (Shared.init sr h) as [[e | c] h'] eqn:Hinit;
    cbn [fst snd] in R; injection Hstep as <- <-.
  - destruct R as [Rinit ->].
    unfold Values.step, Shared.views. rewrite Rinit.
    cbn [Shared.objects Shared.instances].
    split; [reflexivity |].
    unfold Shared.wf. cbn [Shared.objects Shared.instances]. auto.
  - destruct R as (Rinit & [t ->] & Rnd & Rfoot & Rcoef).
    assert (Hlen : (List.length h <= List.length (h ++ t))%nat)
      by (rewrite length_app; lia).
    split.
    + unfold Values.step, Shared.views. rewrite Rinit.
      cbn [Shared.objects Shared.instances].
      rewrite length_map, map_app. cbn [map].
      do 3 f_equal. apply map_ext_in. intros c0 Hc0.
      destruct (In_nth_error _ _ Hc0) as [k Hk].
      symmetry. apply view_old; [exact Hsize | exact (Hown _ _ Hk)].
    + unfold Shared.wf. cbn [Shared.objects Shared.instances].
      split; [lia | split; [| split]].
      * intros l Hl. rewrite load_app_old by lia. apply Hintact, Hl.
      * intros i ci Hi.
        destruct (nth_error_snoc _ _ _ _ Hi) as [[_ Hold] | [_ ->]].
        -- exact (owned_grows _ _ _ Hlen (Hown _ _ Hold)).
        -- split; [exact Rnd | split; [| exact Rcoef]].
           intros l Hl. destruct (Rfoot l Hl). lia.
      * intros i j ci cj Hne Hi Hj l Hli Hlj.
        destruct (nth_error_snoc _ _ _ _ Hi) as [[_ Hiold] | [Hieq ->]];
          destruct (nth_error_snoc _ _ _ _ Hj) as [[_ Hjold] | [Hjeq ->]].
        -- exact (Hsep _ _ _ _ Hne Hiold Hjold l Hli Hlj).
        -- destruct (Hown _ _ Hiold) as (_ & Hfi & _).
           destruct (Hfi l Hli). destruct (Rfoot l Hlj). lia.
        -- destruct (Hown _ _ Hjold) as (_ & Hfj & _).
           destruct (Hfj l Hlj). destruct (Rfoot l Hli). lia.
        -- lia.
Qed.

Lemma step_process_refines (st st' : Shared.state) (i : nat) (x : float)
    (ev : list event) :
  Shared.wf st ->
  Shared.step st (Call i (Process x)) = Some (ev, st') ->
  Values.step (Shared.views st) (Call i (Process x))
  = Some (ev, Shared.views st')
  /\ Shared.wf st'.
Proof.
  destruct st as [h insts].
  intros (Hsize & Hintact & Hown & Hsep) Hstep.
  cbn [Shared.objects Shared.instances] in *.
  unfold Shared.step in Hstep. cbn [Shared.objects Shared.instances] in Hstep.
  destruct (nth_error insts i) as [c |] eqn:Hc; [| discriminate Hstep].
  pose proof (Hown _ _ Hc) as Hownc.
  destruct (process_refines h c x Hownc) as (Rval & Rlen & Rframe).
  destruct (Shared.process c x h) as [y h'] eqn:Hproc.
  cbn [fst snd] in Rval, Rlen, Rframe. injection Hstep as <- <-.
  assert (Hother : forall k ck, k <> i -> nth_error insts k = Some ck ->
                     Shared.view h' ck = Shared.view h ck).
  { intros k ck Hne Hk. apply view_frame; intros l Hl; apply Rframe.
    - intros Hlc. exact (Hsep _ _ _ _ Hne Hk Hc l Hl Hlc).
    - intros Hlc. destruct (Hown _ _ Hk) as (_ & _ & Hcoef).
      specialize (Hcoef l Hl).
      destruct Hownc as (_ & Hfoot & _). destruct (Hfoot l Hlc). lia. }
  split.
  - unfold Values.step, Shared.views.
    cbn [Shared.objects Shared.instances].
    rewrite (map_nth_error _ _ _ Hc), <- Rval.
    do 2 f_equal. apply nth_error_ext. intros k.
    destruct (Nat.eq_dec k i) as [-> | Hne].
    + rewrite nth_error_update_same
        by (rewrite length_map; apply nth_error_Some; congruence).
      rewrite nth_error_map, Hc. reflexivity.
    + rewrite nth_error_update_other by auto.
      rewrite !nth_error_map.
      destruct (nth_error insts k) as [ck |] eqn:Hk; [| reflexivity].
      cbn [option_map]. rewrite (Hother _ _ Hne Hk). reflexivity.
  - unfold Shared.wf. cbn [Shared.objects Shared.instances].
    split; [lia | split; [| split]].
    + intros l Hl. rewrite Rframe; [apply Hintact, Hl |].
      intros Hlc. destruct Hownc as (_ & Hfoot & _).
      destruct (Hfoot l Hlc). lia.
    + intros k ck Hk. apply (owned_grows h); [lia | exact (Hown _ _ Hk)].
    + exact Hsep.
Qed.

Lemma step_reset_refines (st st' : Shared.state) (i : nat)
    (ev : list event) :
  Shared.wf st ->
  Shared.step st (Call i Reset) = Some (ev, st') ->
  Values.step (Shared.views st) (Call i Reset) = Some (ev, Shared.views st')
  /\ Shared.wf st'.
Proof.
  destruct st as [h insts].
  intros (Hsize & Hintact & Hown & Hsep) Hstep.
  cbn [Shared.objects Shared.instances] in *.
  unfold Shared.step in Hstep. cbn [Shared.objects Shared.instances] in Hstep.
  destruct (nth_error insts i) as [c |] eqn:Hc; [| discriminate Hstep].
  pose proof (Hown _ _ Hc) as Hownc.
  assert (Hcoefc : forall l, In l (Shared.coefficient_refs c) ->
                     (l < List.length h)%nat).
  { intros l Hl. destruct Hownc as (_ & _ & Hcoef).
    specialize (Hcoef l Hl). lia. }
  destruct (reset_refines h c Hcoefc) as (Rval & (t & Rheap & Rt) & Rfoot & Rcoef).
  destruct (Shared.reset c h) as [c' h'] eqn:Hreset.
  cbn [fst snd] in Rval, Rheap, Rfoot, Rcoef. subst h'.
  injection Hstep as <- <-.
  assert (Hlen : (List.length h <= List.length (h ++ t))%nat)
    by (rewrite length_app; lia).
  assert (Hi : (i < List.length insts)%nat)
    by (apply nth_error_Some; congruence).
  assert (Hownc' : Shared.owned (h ++ t) c').
  { split; [| split].
    - rewrite Rfoot. repeat constructor; simpl; lia.
    - rewrite Rfoot, length_app, Rt. intros l Hl. simpl in Hl. lia.
    - rewrite Rcoef. destruct Hownc as (_ & _ & Hcoef). exact Hcoef. }
  split.
  - unfold Values.step, Shared.views.
    cbn [Shared.objects Shared.instances].
    rewrite (map_nth_error _ _ _ Hc).
    do 2 f_equal. apply nth_error_ext. intros k.
    destruct (Nat.eq_dec k i) as [-> | Hne].
    + rewrite nth_error_update_same by (rewrite length_map; exact Hi).
      rewrite nth_error_map, nth_error_update_same by exact Hi.
      cbn [option_map]. rewrite Rval. reflexivity.
    + rewrite nth_error_update_other by auto.
      rewrite !nth_error_map, nth_error_update_other by auto.
      destruct (nth_error insts k) as [ck |] eqn:Hk; [| reflexivity].
      cbn [option_map].
      rewrite (view_old h t ck Hsize (Hown _ _ Hk)). reflexivity.
  - unfold Shared.wf. cbn [Shared.objects Shared.instances].
    split; [lia | split; [| split]].
    + intros l Hl. rewrite load_app_old by lia. apply Hintact, Hl.
    + intros k ck Hk.
      destruct (nth_error_update_inv _ _ _ _ _ Hk) as [[_ ->] | [_ Hold]].
      * exact Hownc'.
      * exact (owned_grows _ _ _ Hlen (Hown _ _ Hold)).
    + intros k1 k2 c1 c2 Hne H1 H2 l Hl1 Hl2.
      destruct (nth_error_update_inv _ _ _ _ _ H1) as [[E1 ->] | [N1 O1]];
        destruct (nth_error_update_inv _ _ _ _ _ H2) as [[E2 ->] | [N2 O2]].
      * lia.
      * rewrite Rfoot in Hl1. simpl in Hl1.
        destruct (Hown _ _ O2) as (_ & Hf2 & _). destruct (Hf2 l Hl2). lia.
      * rewrite Rfoot in Hl2. simpl in Hl2.
        destruct (Hown _ _ O1) as (_ & Hf1 & _). destruct (Hf1 l Hl1). lia.
      * exact (Hsep _ _ _ _ Hne O1 O2 l Hl1 Hl2).
Qed.

Lemma step_refines (st st' : Shared.state) (o : op) (ev : list event) :
  Shared.wf st ->
  Shared.step st o = Some (ev, st') ->
  Values.step (Shared.views st) o = Some (ev, Shared.views st')
  /\ Shared.wf st'.
Proof.
  destruct o as [sr | i [x |]].
  - apply step_new_refines.
  - apply step_process_refines.
  - apply step_reset_refines.
Qed.

(** A program on the objects observes what the same program on values
    observes. *)
Lemma exec_refines (ops : list op) : forall st st' trace,
  Shared.wf st ->
  Shared.exec ops st = Some (trace, st') ->
  Values.exec ops (Shared.views st) = Some (trace, Shared.views st')
  /\ Shared.wf st'.
Proof.
  induction ops as [| o rest IH]; intros st st' trace Hwf Hexec;
    cbn [Shared.exec Values.exec] in *.
  - injection Hexec as <- <-. auto.
  - destruct (Shared.step st o) as [[ev st1] |] eqn:Hstep;
      [| discriminate Hexec].
    destruct (step_refines _ _ _ _ Hwf Hstep) as [Hval Hwf1].
    destruct (Shared.exec rest st1) as [[evs st2] |] eqn:Hrest;
      [| discriminate Hexec].
    injection Hexec as <- <-.
    destruct (IH _ _ _ Hwf1 Hrest) as [Hvals Hwf2].
    rewrite Hval, Hvals. auto.
Qed.

Lemma module_state_wf : Shared.wf Shared.module_state.
Proof.
  unfold Shared.wf, Shared.module_state.
  cbn [Shared.objects Shared.instances].
  split; [unfold Shared.table_size; lia | split; [reflexivity | split]].
  - intros [| i] c H; discriminate H.
  - intros [| i] j ci cj _ H; discriminate H.
Qed.

(** ** Each instance on its own *)

(** In a program on values, what an instance returns is what that cascade
    returns over the calls made on it: for an instance that exists at the
    start, and for one the program constructs. *)
Lemma values_exec_instance (ops : list op) : forall ps ps' trace,
  Values.exec ops ps = Some (trace, ps') ->
  (forall i p, nth_error ps i = Some p ->
     outputs_of i trace = outputs p (calls_on i ops))
  /\ (forall i sr, In (Built i sr) trace ->
        (List.length ps <= i)%nat
        /\ exists fresh,
             init sr = inr fresh
             /\ outputs_of i trace = outputs fresh (calls_on i ops)).
Proof.
  induction ops as [| o rest IH]; intros ps ps' trace Hexec;
    cbn [Values.exec] in Hexec.
  - injection Hexec as <- <-. split; [reflexivity | intros i sr []].
  - destruct (Values.step ps o) as [[ev ps1] |] eqn:Hstep;
      [| discriminate Hexec].
    destruct (Values.exec rest ps1) as [[evs ps2] |] eqn:Hrest;
      [| discriminate Hexec].
    injection Hexec as <- <-.
    destruct (IH _ _ _ Hrest) as [IHold IHnew].
    destruct o as [sr | j c]; cbn [Values.step] in Hstep.
    + (* a construction *)
      destruct (init sr) as [e | self] eqn:Hinit; injection Hstep as <- <-;
        cbn [app calls_on outputs_of].
      * split; [exact IHold |].
        intros i sr' [Hhd | Hin]; [discriminate Hhd | exact (IHnew _ _ Hin)].
      * split.
        -- intros i p Hp. apply IHold.
           rewrite nth_error_app1 by (apply nth_error_Some; congruence).
           exact Hp.
        -- intros i sr' [Hhd | Hin].
           ++ injection Hhd as <- <-. split; [lia |].
              exists self. split; [exact Hinit |].
              apply IHold. rewrite nth_error_app2 by lia.
              rewrite Nat.sub_diag. reflexivity.
           ++ destruct (IHnew _ _ Hin) as [Hlen Hfresh].
              rewrite length_app in Hlen. cbn [List.length] in Hlen.
              split; [lia | exact Hfresh].
    + (* a call *)
      destruct (nth_error ps j) as [self |] eqn:Hself;
        [| discriminate Hstep].
      assert (Hj : (j < List.length ps)%nat)
        by (apply nth_error_Some; congruence).
      destruct c as [x |].
      * destruct (process self x) as [y self'] eqn:Hproc.
        injection Hstep as <- <-.
        cbn [app calls_on outputs_of]. split.
        -- intros i p Hp. destruct (Nat.eqb_spec j i) as [-> | Hne].
           ++ assert (p = self) by congruence. subst p.
              cbn [outputs]. rewrite Hproc. f_equal.
              apply IHold. apply nth_error_update_same, Hj.
           ++ apply IHold. rewrite nth_error_update_other by exact Hne.
              exact Hp.
        -- intros i sr [Hhd | Hin]; [discriminate Hhd |].
           destruct (IHnew _ _ Hin) as [Hlen Hfresh].
           rewrite update_length in Hlen.
           split; [exact Hlen |].
           destruct (Nat.eqb_spec j i) as [-> | Hne]; [lia | exact Hfresh].
      * injection Hstep as <- <-.
        cbn [app calls_on outputs_of]. split.
        -- intros i p Hp. destruct (Nat.eqb_spec j i) as [-> | Hne].
           ++ assert (p = self) by congruence. subst p.
              cbn [outputs].
              apply IHold. apply nth_error_update_same, Hj.
           ++ apply IHold. rewrite nth_error_update_other by exact Hne.
              exact Hp.
        -- intros i sr Hin.
           destruct (IHnew _ _ Hin) as [Hlen Hfresh].
           rewrite update_length in Hlen.
           split; [exact Hlen |].
           destruct (Nat.eqb_spec j i) as [-> | Hne]; [lia | exact Hfresh].
Qed.

(** ** Determinism *)

(** C9: in any program that constructs cascades and calls [process] and
    [reset] on them in any order, with the lists of the table shared by
    all instances, two cascades constructed for the same rate that
    receive the same calls return the same values; what an instance
    returns is what a cascade on its own returns over the calls made on
    it, and the lists of the table are at the end what they were at the
    import. *)
Theorem determinism (ops : list op) (trace : list event)
    (st : Shared.state) (i j : nat) (sr : Z) :
  Shared.exec ops Shared.module_state = Some (trace, st) ->
  In (Built i sr) trace ->
  In (Built j sr) trace ->
  calls_on i ops = calls_on j ops ->
  outputs_of i trace = outputs_of j trace
  /\ (exists fresh,
        init sr = inr fresh
        /\ outputs_of i trace = outputs fresh (calls_on i ops))
  /\ (forall l, (l < Shared.table_size)%nat ->
        Shared.load (Shared.objects st) l
        = Shared.load Shared.module_heap l).
Proof.
  intros Hexec Hi Hj Hcalls.
  destruct (exec_refines _ _ _ _ module_state_wf Hexec) as [Hvals Hwf].
  destruct (values_exec_instance _ _ _ _ Hvals) as [_ Hnew].
  destruct (Hnew _ _ Hi) as (_ & fi & Hfi & Houti).
  destruct (Hnew _ _ Hj) as (_ & fj & Hfj & Houtj).
  assert (fi = fj) by congruence. subst fj.
  split; [| split].
  - rewrite Houti, Houtj, Hcalls. reflexivity.
  - exists fi. split; [exact Hfi | exact Houti].
  - destruct Hwf as (_ & Hintact & _). exact Hintact.
Qed.

Lemma determinism_witness :
  let ops :=
    [ New 44100; New 48000; New 5; New 44100;
      Call 0 (Process 1%float); Call 1 (Process 3%float);
      Call 2 (Process 1%float); Call 0 (Process 0.5%float);
      Call 1 Reset; Call 0 Reset; Call 2 (Process 0.5%float);
      Call 0 (Process 2%float); Call 2 Reset; Call 2 (Process 2%float) ] in
  exists trace st,
    Shared.exec ops Shared.module_state = Some (trace, st)
    /\ outputs_of 0 trace = outputs_of 2 trace
    /\ List.length (outputs_of 0 trace) = 3%nat.
Proof.
  intros ops. eexists. eexists.
  split; [vm_compute; reflexivity |].
  split; [| vm_compute; reflexivity].
  eapply (determinism ops _ _ 0 2 44100).
  - vm_compute. reflexivity.
  - simpl. auto.
  - simpl. auto 6.
  - reflexivity.
Defined.
